(** * Incremental sync strategy of the MongoDB tap

    A shallow embedding of [tap_mongodb/sync_strategies/incremental.py]:
    [update_bookmark] and [sync_collection], together with the parts of
    the singer library they call (bookmarks, messages, metadata).

    The state dictionary is a mutable Python object that the code updates
    in place and of which it emits deep copies, so the embedding keeps a
    store of dictionary objects; messages hold references into it, and
    [write_message] formats a message to standard output at once.  A run
    yields its result or exception, the final store and the trace of what
    it wrote and queried. *)

From Stdlib Require Import ZArith String List Lia.
From Stdlib Require Import Decimal DecimalString DecimalZ.
From stdpp Require Import base option list sorting gmap strings.

Local Open Scope string_scope.
Local Open Scope list_scope.

#[local] Set Warnings "-register-all".

(** ** Python values *)

(** The values that occur in rows, bookmarks and messages.  A float is kept
    as its IEEE-754 binary64 bit pattern; BSON types keep their payload. *)
Inductive pyval : Type :=
| VNone
| VBool (b : bool)
| VInt (n : Z)
| VInt64 (n : Z)
| VFloat (bits : Z)
| VStr (s : string)
| VBytes (b : list Byte.byte)
| VDatetime (micros : Z)
| VTimestamp (time inc : Z)
| VObjectId (hex : string)
| VUUID (hex : string)
| VList (l : list pyval)
| VDict (d : list (string * pyval)).

(** [x is None] *)
Definition is_none (v : pyval) : bool :=
  match v with VNone => true | _ => false end.

(** Python truth value testing, [if v:].  A float is false when it is
    [+0.0] or [-0.0], that is when all bits but the sign bit are clear. *)
Definition truthy (v : pyval) : bool :=
  match v with
  | VNone => false
  | VBool b => b
  | VInt n | VInt64 n => negb (n =? 0)%Z
  | VFloat bits => negb (Z.land bits (2 ^ 63 - 1) =? 0)%Z
  | VStr s => negb (String.eqb s EmptyString)
  | VBytes b => match b with [] => false | _ => true end
  | VDatetime _ | VTimestamp _ _ | VObjectId _ | VUUID _ => true
  | VList l => match l with [] => false | _ => true end
  | VDict d => match d with [] => false | _ => true end
  end.

(** [v.__class__.__name__] *)
Definition class_name (v : pyval) : string :=
  match v with
  | VNone => "NoneType"
  | VBool _ => "bool"
  | VInt _ => "int"
  | VInt64 _ => "Int64"
  | VFloat _ => "float"
  | VStr _ => "str"
  | VBytes _ => "bytes"
  | VDatetime _ => "datetime"
  | VTimestamp _ _ => "Timestamp"
  | VObjectId _ => "ObjectId"
  | VUUID _ => "UUID"
  | VList _ => "list"
  | VDict _ => "dict"
  end.

(** A row is a document: field name to value. *)
Abbreviation Row := (gmap string pyval).

(** The replication key name comes from [stream_metadata.get('replication-key')]
    and is [None] when the metadata does not designate one. *)
Abbreviation keyname := (option string).

(** [row.get(key)]: rows have string keys only, so a [None] key finds nothing. *)
Definition row_get (row : Row) (key : keyname) : pyval :=
  match key with
  | Some k => default VNone (row !! k)
  | None => VNone
  end.

(** ** Exceptions *)

Inductive exn :=
| AttributeError
| TypeError
| ValueError
| ZeroDivisionError
| UnsupportedKeyTypeException
| DriverError (msg : string).

Inductive result (A : Type) :=
| Ok (a : A)
| Raise (e : exn).
Arguments Ok {A} a.
Arguments Raise {A} e.

(** ** Bookmark dictionaries

    The content of the state dictionary under ['bookmarks']: stream id to
    bookmark key to value.  A state without the ['bookmarks'] entry reads
    and updates like one where it is empty. *)
Abbreviation State := (gmap string (gmap string pyval)).

(** [state.get('bookmarks', {}).get(tap_stream_id, {}).get(key)] *)
Definition bookmark_lookup (state : State) (tap_stream_id key : string) : pyval :=
  default VNone (default ∅ (state !! tap_stream_id) !! key).

(** [ensure_bookmark_path] followed by
    [state['bookmarks'][tap_stream_id][key] = val] *)
Definition bookmark_insert (state : State) (tap_stream_id key : string) (val : pyval)
  : State :=
  <[tap_stream_id := <[key := val]> (default ∅ (state !! tap_stream_id))]> state.

(** ** Streams and metadata *)

Record Stream := {
  tap_stream_id : string;
  stream_name : string;
  (** [stream['metadata']]: a list of breadcrumb / metadata entries; only
      string-valued metadata is kept. *)
  metadata : list (list string * gmap string string)
}.

(** [singer.metadata.to_map]: a dictionary comprehension, so the last entry
    with a given breadcrumb wins. *)
Definition to_map (raw : list (list string * gmap string string))
  : gmap (list string) (gmap string string) :=
  foldl (λ m md, <[md.1 := md.2]> m) ∅ raw.

(** ** Messages *)

(** The running schema [{"type": "object", "properties": {...}}]. *)
Record Schema := {
  schema_type : string;
  properties : gmap string string
}.

Record SingerRecord := {
  rec_stream : string;
  rec_record : Row;
  rec_version : pyval;
  rec_time_extracted : Z
}.

(** Singer messages.  [R] is what a STATE message holds: a reference to a
    dictionary object while the message is in memory, the dictionary's
    content once the message is formatted. *)
Inductive message (R : Type) :=
| ActivateVersionMessage (stream : string) (version : pyval)
| StateMessage (value : R)
| SchemaMessage (stream : string) (schema : Schema) (key_properties : list string)
| RecordMessage (record : SingerRecord).
Arguments ActivateVersionMessage {R} stream version.
Arguments StateMessage {R} value.
Arguments SchemaMessage {R} stream schema key_properties.
Arguments RecordMessage {R} record.

(** ** The source driver *)

Abbreviation find_filter := (gmap (option string) (gmap string pyval)).

(** [pymongo.ASCENDING] *)
Definition ASCENDING : Z := 1.

(** What iterating a cursor gives: the rows, and the error that ends the
    iteration early if there is one. *)
Record Cursor := {
  cur_rows : list Row;
  cur_error : option exn
}.

(** [collection.find(filter, projection, sort=...)] *)
Record Collection := {
  find : find_filter → option string → list (keyname * Z) → result Cursor
}.


(** ** The object store and the trace *)

Abbreviation loc := nat.

(** The dictionary objects: the state and its deep copies. *)
Abbreviation Heap := (gmap loc State).

Definition deref (h : Heap) (l : loc) : State := default ∅ (h !! l).

(** What a run does to the outside, oldest first: [Wrote m line] is a call
    [singer.write_message(m)] that wrote [line], the message as formatted at
    that time; [Queried] is a call to [collection.find]. *)
Inductive event :=
| Wrote (m : message loc) (line : message State)
| Queried (f : find_filter) (projection : option string)
    (sort : list (keyname * Z)).

(** Computations that read and update the store, append to the trace and
    may raise.  An exception keeps the store and the trace as they are at
    the time it is raised. *)
Definition M (A : Type) : Type := Heap → result A * Heap * list event.

#[global] Instance M_ret : MRet M := λ A a h, (Ok a, h, []).
#[global] Instance M_bind : MBind M := λ A B f m h,
  match m h with
  | (Ok a, h1, t1) => let '(r, h2, t2) := f a h1 in (r, h2, t1 ++ t2)
  | (Raise e, h1, t1) => (Raise e, h1, t1)
  end.

Definition raise {A} (e : exn) : M A := λ h, (Raise e, h, []).

Definition lift {A} (r : result A) : M A := λ h, (r, h, []).

(** ** singer: bookmarks and messages on the store *)

Definition get_bookmark (state : loc) (tap_stream_id key : string) : M pyval :=
  λ h, (Ok (bookmark_lookup (deref h state) tap_stream_id key), h, []).

(** [singer.write_bookmark] updates the dictionary in place and returns it. *)
Definition write_bookmark (state : loc) (tap_stream_id key : string) (val : pyval)
  : M loc :=
  λ h, (Ok state,
        <[state := bookmark_insert (deref h state) tap_stream_id key val]> h, []).

(** [copy.deepcopy(state)]: a new object with the same content. *)
Definition deepcopy (state : loc) : M loc :=
  λ h, let l := fresh (dom h) in (Ok l, <[l := deref h state]> h, []).

Definition format_message (h : Heap) (m : message loc) : message State :=
  match m with
  | ActivateVersionMessage s v => ActivateVersionMessage s v
  | StateMessage l => StateMessage (deref h l)
  | SchemaMessage s sch k => SchemaMessage s sch k
  | RecordMessage r => RecordMessage r
  end.

(** [singer.write_message(message)] *)
Definition write_message (m : message loc) : M unit :=
  λ h, (Ok tt, h, [Wrote m (format_message h m)]).

(** The call [collection.find(...)]. *)
Definition call_find (collection : Collection) (f : find_filter)
    (projection : option string) (sort : list (keyname * Z)) : M Cursor :=
  λ h, (find collection f projection sort, h, [Queried f projection sort]).

(** What was written to standard output. *)
Definition lines (t : list event) : list (message State) :=
  omap (λ ev, match ev with Wrote _ line => Some line | Queried _ _ _ => None end) t.

(** ** tap_mongodb.sync_strategies.common

    The helpers of the sibling module [common] that the strategy calls. *)
Class Common := {
  class_to_string : pyval → string → result string;
  string_to_class : pyval → pyval → result pyval;
  calculate_destination_stream_name : Stream → string;
  row_to_schema : Schema → Row → Schema * bool;
  row_to_singer_record : Stream → Row → pyval → Z → SingerRecord;
  UPDATE_BOOKMARK_PERIOD : Z
}.

Section Incremental.

Context {common : Common}.

(** ** update_bookmark *)

Definition update_bookmark (row : Row) (state : loc) (tap_stream_id : string)
    (replication_key_name : keyname) : M unit :=
  let replication_key_value := row_get row replication_key_name in
  if truthy replication_key_value then
    let replication_key_type := class_name replication_key_value in
    replication_key_value_bookmark ←
      lift (class_to_string replication_key_value replication_key_type);
    state ← write_bookmark state tap_stream_id "replication_key_value"
              (VStr replication_key_value_bookmark);
    write_bookmark state tap_stream_id "replication_key_type"
              (VStr replication_key_type);;
    mret tt
  else mret tt.

(** ** sync_collection *)

(** Lines 98 to 103: the query filter from the bookmarked value and type. *)
Definition build_find_filter (replication_key_name : keyname)
    (stream_state : gmap string pyval) : result find_filter :=
  let replication_key_value_bookmark :=
    default VNone (stream_state !! "replication_key_value") in
  if truthy replication_key_value_bookmark then
    match string_to_class replication_key_value_bookmark
            (default VNone (stream_state !! "replication_key_type")) with
    | Ok bound => Ok {[ replication_key_name := {[ "$gte" := bound ]} ]}
    | Raise e => Raise e
    end
  else Ok ∅.

(** Lines 121 to 144: the body of the loop over the cursor.  The schema and
    the row count are the loop's local variables. *)
Definition process_row (stream : Stream) (state : loc)
    (replication_key_name : keyname) (stream_version : pyval)
    (time_extracted : Z) (schema : Schema) (rows_saved : Z) (row : Row)
  : M (Schema * Z) :=
  let '(schema, changed) := row_to_schema schema row in
  (if changed
   then write_message (SchemaMessage (calculate_destination_stream_name stream)
                         schema ["_id"])
   else mret tt);;
  let record_message :=
    RecordMessage (row_to_singer_record stream row stream_version time_extracted) in
  write_message record_message;;
  let rows_saved := (rows_saved + 1)%Z in
  update_bookmark row state (tap_stream_id stream) replication_key_name;;
  (if (UPDATE_BOOKMARK_PERIOD =? 0)%Z then raise ZeroDivisionError
   else if (rows_saved mod UPDATE_BOOKMARK_PERIOD =? 0)%Z
   then snapshot ← deepcopy state; write_message (StateMessage snapshot)
   else mret tt);;
  mret (schema, rows_saved).

(** [for row in cursor: ...] *)
Fixpoint stream_rows (stream : Stream) (state : loc)
    (replication_key_name : keyname) (stream_version : pyval)
    (time_extracted : Z) (schema : Schema) (rows_saved : Z) (rows : list Row)
  : M (Schema * Z) :=
  match rows with
  | [] => mret (schema, rows_saved)
  | row :: rows =>
      '(schema, rows_saved) ←
        process_row stream state replication_key_name stream_version
          time_extracted schema rows_saved row;
      stream_rows stream state replication_key_name stream_version
        time_extracted schema rows_saved rows
  end.

(** [now_ms] is the value of [int(time.time() * 1000)] and [time_extracted]
    that of [utils.now()] at the time of the call.  The metric accumulators
    of [common] are written only and are left out. *)
Definition sync_collection (collection : Collection) (stream : Stream)
    (state : loc) (projection : option string) (now_ms time_extracted : Z)
  : M unit :=
  let tap_stream_id := tap_stream_id stream in
  let stream_metadata := to_map (metadata stream) !! [] in
  (* before writing the table version to state, check if we had one *)
  stored ← get_bookmark state tap_stream_id "version";
  let first_run := is_none stored in
  stream_version ←
    (if first_run then mret (VInt now_ms)
     else get_bookmark state tap_stream_id "version");
  state ← write_bookmark state tap_stream_id "version" stream_version;
  let activate_version_message :=
    ActivateVersionMessage (calculate_destination_stream_name stream)
      stream_version in
  (if first_run then write_message activate_version_message else mret tt);;
  (* get replication key, and bookmarked value/type *)
  stream_state ← (λ h, (Ok (default ∅ (deref h state !! tap_stream_id)), h, []));
  replication_key_name ←
    match stream_metadata with
    | Some md => mret (md !! "replication-key")
    | None => raise AttributeError
    end;
  (* write state message *)
  snapshot ← deepcopy state;
  write_message (StateMessage snapshot);;
  (* create query *)
  find_filter ← lift (build_find_filter replication_key_name stream_state);
  (* query collection *)
  let schema := {| schema_type := "object"; properties := ∅ |} in
  cursor ← call_find collection find_filter projection
             [(replication_key_name, ASCENDING)];
  stream_rows stream state replication_key_name stream_version time_extracted
    schema 0 (cur_rows cursor);;
  match cur_error cursor with
  | Some e => raise e
  | None => mret tt
  end;;
  write_message activate_version_message.

End Incremental.

(** ** A reference instance of the helpers *)

(** Python's [str] and [int] between integers and decimal strings. *)
Definition str_of_int (n : Z) : string := NilZero.string_of_int (Z.to_int n).

Definition int_of_str (s : string) : option Z :=
  Z.of_int <$> NilZero.int_of_string s.

(** Modelled from the spec: [common.class_to_string], of the sibling module
    [common].  A key value is serialized to a string, tagged by
    its type name.  The type families the spec asks for are covered:
    integers, floating point, strings, date/time values and the
    identifiers of the source; any other type is refused.  The spec fixes
    no text for a value, only that the value comes back from it: a float
    is written here as the decimal of its bit pattern and a date/time as
    the decimal of its microseconds. *)
Definition spec_class_to_string (v : pyval) (key_type : string) : result string :=
  match v with
  | VInt n | VInt64 n =>
      if bool_decide (key_type ∈ ["int"; "Int64"]) then Ok (str_of_int n)
      else Raise UnsupportedKeyTypeException
  | VFloat bits =>
      if bool_decide (key_type = "float") then Ok (str_of_int bits)
      else Raise UnsupportedKeyTypeException
  | VDatetime micros =>
      if bool_decide (key_type = "datetime") then Ok (str_of_int micros)
      else Raise UnsupportedKeyTypeException
  | VStr s | VObjectId s | VUUID s =>
      if bool_decide (key_type ∈ ["str"; "ObjectId"; "UUID"]) then Ok s
      else Raise UnsupportedKeyTypeException
  | _ => Raise UnsupportedKeyTypeException
  end.

(** Modelled from the spec: [common.string_to_class], the inverse of
    [spec_class_to_string]: the type tag selects the decoder, a text that
    the decoder cannot read is a [ValueError], as with Python's [int] and
    [float], and a tag that is not of a supported type is refused. *)
Definition spec_string_to_class (str_value type_value : pyval) : result pyval :=
  match str_value, type_value with
  | VStr s, VStr ty =>
      if String.eqb ty "int" then
        match int_of_str s with Some n => Ok (VInt n) | None => Raise ValueError end
      else if String.eqb ty "Int64" then
        match int_of_str s with Some n => Ok (VInt64 n) | None => Raise ValueError end
      else if String.eqb ty "float" then
        match int_of_str s with Some n => Ok (VFloat n) | None => Raise ValueError end
      else if String.eqb ty "datetime" then
        match int_of_str s with
        | Some n => Ok (VDatetime n)
        | None => Raise ValueError
        end
      else if String.eqb ty "str" then Ok (VStr s)
      else if String.eqb ty "ObjectId" then Ok (VObjectId s)
      else if String.eqb ty "UUID" then Ok (VUUID s)
      else Raise UnsupportedKeyTypeException
  | _, _ => Raise UnsupportedKeyTypeException
  end.

(** Modelled from the spec: [common.row_to_schema], of the sibling module
    [common].  The row's field shape is merged into the running
    schema; a field is new when its name is not yet among the schema's
    properties, whatever its value's type, and the result tells whether any
    field was new. *)
Definition spec_row_to_schema (schema : Schema) (row : Row) : Schema * bool :=
  ({| schema_type := schema_type schema;
      properties := properties schema ∪ (class_name <$> row) |},
   bool_decide (¬ dom row ⊆ dom (properties schema))).

(** Modelled from the spec: [common.row_to_singer_record], of the sibling
    module [common].  A RECORD message carries the destination name,
    the row's fields, the version and the extraction timestamp. *)
Definition spec_row_to_singer_record (dest : Stream → string) (stream : Stream)
    (row : Row) (version : pyval) (time_extracted : Z) : SingerRecord :=
  {| rec_stream := dest stream; rec_record := row; rec_version := version;
     rec_time_extracted := time_extracted |}.

(** The helpers as the spec describes them, for a given checkpoint period. *)
Definition spec_common (period : Z) : Common :=
  {| class_to_string := spec_class_to_string;
     string_to_class := spec_string_to_class;
     calculate_destination_stream_name := stream_name;
     row_to_schema := spec_row_to_schema;
     row_to_singer_record := spec_row_to_singer_record stream_name;
     UPDATE_BOOKMARK_PERIOD := period |}.

(** ** Sample data *)

Definition heap0 (state : State) : Heap := {[ 0%nat := state ]}.

Definition orders (md : list (list string * gmap string string)) : Stream :=
  {| tap_stream_id := "db-orders"; stream_name := "orders"; metadata := md |}.

Definition orders_by_updated_at : Stream :=
  orders [([], {[ "replication-key" := "updated_at" ]})].

Definition order (id updated_at : Z) : Row :=
  {[ "_id" := VInt id; "updated_at" := VInt updated_at ]}.

(** A driver that serves the given rows whatever the query. *)
Definition serving (rows : list Row) : Collection :=
  {| find := λ _ _ _, Ok {| cur_rows := rows; cur_error := None |} |}.

(** A driver that, like pymongo, refuses a sort key that is not a string. *)
Definition strict_serving (rows : list Row) : Collection :=
  {| find := λ _ _ sort,
       if forallb (λ ks, bool_decide (is_Some ks.1)) sort
       then Ok {| cur_rows := rows; cur_error := None |}
       else Raise TypeError |}.

(** The order of integer keys, for the sample collections. *)
Definition int_key_le (a b : pyval) : Prop :=
  match a, b with
  | VInt x, VInt y => (x ≤ y)%Z
  | _, _ => a = b
  end.

Definition three_orders : list Row := [order 1 1; order 2 2; order 3 3].

(** A first run: no prior state, three rows, a checkpoint every two rows. *)
Definition first_run : result unit * Heap * list event :=
  @sync_collection (spec_common 2) (serving three_orders) orders_by_updated_at
    0%nat None 1700 5 (heap0 ∅).

(** The state a run leaves when it is interrupted after the second row. *)
Definition resumed_state : State :=
  {[ "db-orders" := {[ "version" := VInt 1500;
                       "replication_key_value" := VStr "2";
                       "replication_key_type" := VStr "int" ]} ]}.

(** The next run, over the rows at or above the bookmark. *)
Definition resumed_run : result unit * Heap * list event :=
  @sync_collection (spec_common 2) (serving [order 2 2; order 3 3])
    orders_by_updated_at 0%nat None 1700 5 (heap0 resumed_state).

(** A state whose bookmark is the empty string. *)
Definition empty_bookmark_state : State :=
  {[ "db-orders" := {[ "version" := VInt 1500;
                       "replication_key_value" := VStr EmptyString;
                       "replication_key_type" := VStr "str" ]} ]}.

Definition empty_bookmark_run : result unit * Heap * list event :=
  @sync_collection (spec_common 2) (serving three_orders) orders_by_updated_at
    0%nat None 1700 5 (heap0 empty_bookmark_state).

(** The loop of the first run after its first two rows, and from there
    over the third row. *)
Definition schema_of_orders : Schema :=
  {| schema_type := "object";
     properties := {[ "_id" := "int"; "updated_at" := "int" ]} |}.

Definition loop_two : result (Schema * Z) * Heap * list event :=
  @stream_rows (spec_common 2) orders_by_updated_at 0%nat (Some "updated_at")
    (VInt 1700) 5 {| schema_type := "object"; properties := ∅ |} 0
    [order 1 1; order 2 2] (heap0 ∅).

Definition loop_third : result (Schema * Z) * Heap * list event :=
  @stream_rows (spec_common 2) orders_by_updated_at 0%nat (Some "updated_at")
    (VInt 1700) 5 schema_of_orders 2 [order 3 3] loop_two.1.2.

(** A stream whose metadata designates no replication key. *)
Definition orders_without_key : Stream := orders [([], ∅)].

Definition keyless_run (collection : Collection)
  : result unit * Heap * list event :=
  @sync_collection (spec_common 2) collection orders_without_key
    0%nat None 1700 5 (heap0 ∅).

(** The store after [update_bookmark] on a row with the key 7. *)
Definition stored_seven : result unit * Heap * list event :=
  @update_bookmark (spec_common 2) (order 1 7) 0%nat "db-orders"
    (Some "updated_at") (heap0 ∅).

(** A loop whose last row has the key 0. *)
Definition loop_zero_last : result (Schema * Z) * Heap * list event :=
  @stream_rows (spec_common 2) orders_by_updated_at 0%nat (Some "updated_at")
    (VInt 1700) 5 {| schema_type := "object"; properties := ∅ |} 0
    [order 1 1; order 2 3; order 3 0] (heap0 ∅).

(** A row whose key is a boolean, which the reference helpers refuse. *)
Definition flagged_order : Row :=
  {[ "_id" := VInt 3; "updated_at" := VBool true ]}.

(** The run after the first run, on the state it left, over no rows. *)
Definition second_run : result unit * Heap * list event :=
  @sync_collection (spec_common 2) (serving []) orders_by_updated_at
    0%nat None 1900 6 first_run.1.2.

(** A first run over a collection without rows. *)
Definition empty_run : result unit * Heap * list event :=
  @sync_collection (spec_common 2) (serving []) orders_by_updated_at
    0%nat None 1700 5 (heap0 ∅).

(** A driver whose cursor ends on an error after the given rows. *)
Definition failing_after (rows : list Row) (e : exn) : Collection :=
  {| find := λ _ _ _, Ok {| cur_rows := rows; cur_error := Some e |} |}.

Definition interrupted_run : result unit * Heap * list event :=
  @sync_collection (spec_common 2)
    (failing_after three_orders (DriverError "connection lost"))
    orders_by_updated_at 0%nat None 1700 5 (heap0 ∅).

(** A stream whose metadata has no entry for the empty breadcrumb. *)
Definition orders_without_metadata : Stream := orders [].

Definition unconfigured_run : result unit * Heap * list event :=
  @sync_collection (spec_common 2) (serving three_orders)
    orders_without_metadata 0%nat None 1700 5 (heap0 ∅).

(** Rows whose fields change from one to the next: the second has the key
    as a string, the third brings a field of its own. *)
Definition mixed_orders : list Row :=
  [order 1 1;
   {[ "_id" := VInt 2; "updated_at" := VStr "2" ]};
   {[ "_id" := VInt 3; "updated_at" := VInt 3; "note" := VStr "late" ]}].

(** The same rows with integer keys throughout. *)
Definition plain_orders : list Row :=
  [order 1 1;
   order 2 2;
   {[ "_id" := VInt 3; "updated_at" := VInt 3; "note" := VStr "late" ]}].

Definition mixed_run : result unit * Heap * list event :=
  @sync_collection (spec_common 2) (serving mixed_orders) orders_by_updated_at
    0%nat None 1700 5 (heap0 ∅).

(** ** Reading states and traces *)

Definition is_activate {R} (m : message R) : bool :=
  match m with ActivateVersionMessage _ _ => true | _ => false end.

Definition is_state {R} (m : message R) : bool :=
  match m with StateMessage _ => true | _ => false end.

Definition is_schema {R} (m : message R) : bool :=
  match m with SchemaMessage _ _ _ => true | _ => false end.

Definition is_record {R} (m : message R) : bool :=
  match m with RecordMessage _ => true | _ => false end.

(** How many of the written messages satisfy [p]. *)
Definition count (p : message State → bool) (t : list event) : nat :=
  length (List.filter p (lines t)).

(** The queries made, oldest first. *)
Definition issued (t : list event)
  : list (find_filter * option string * list (keyname * Z)) :=
  omap (λ ev, match ev with
              | Queried f p s => Some (f, p, s)
              | Wrote _ _ => None
              end) t.

(** The schemas written, oldest first. *)
Definition schemas (t : list event) : list Schema :=
  omap (λ m, match m with SchemaMessage _ sch _ => Some sch | _ => None end)
       (lines t).

(** The records written, oldest first. *)
Definition records (t : list event) : list SingerRecord :=
  omap (λ m, match m with RecordMessage rec => Some rec | _ => None end)
       (lines t).

(** The version [sync_collection] settles on, from the content of the state
    at the call: lines 65 to 71. *)
Definition resolved_version (content : State) (tap_stream_id : string) (now_ms : Z)
  : pyval :=
  let stored := bookmark_lookup content tap_stream_id "version" in
  if is_none stored then VInt now_ms else stored.

(** The content of the state once [sync_collection] has written the
    version into it: lines 73 to 76. *)
Definition versioned (content : State) (tap_stream_id : string) (now_ms : Z)
  : State :=
  bookmark_insert content tap_stream_id "version"
    (resolved_version content tap_stream_id now_ms).

(** A filter as the driver reads it: a row passes when, for every clause
    [{k: {'$gte': bound}}], the row's value under [k] is at or above the
    bound in the order [key_le] of the source. *)
Definition admits (key_le : relation pyval) (f : find_filter) (row : Row) : Prop :=
  ∀ k ops bound,
    f !! k = Some ops → ops !! "$gte" = Some bound → key_le bound (row_get row k).

Section Reading.

Context {common : Common}.

(** The key value a stored bookmark stands for: what the next run's filter
    decodes from the stored value and type (lines 102 and 103). *)
Definition bookmarked_key (content : State) (tap_stream_id : string)
  : result pyval :=
  string_to_class (bookmark_lookup content tap_stream_id "replication_key_value")
                  (bookmark_lookup content tap_stream_id "replication_key_type").

(** What [update_bookmark] does to the content of the state dictionary. *)
Definition advance (tap_stream_id : string) (replication_key_name : keyname)
    (content : State) (row : Row) : State :=
  let v := row_get row replication_key_name in
  if truthy v then
    match class_to_string v (class_name v) with
    | Ok s =>
        bookmark_insert
          (bookmark_insert content tap_stream_id "replication_key_value" (VStr s))
          tap_stream_id "replication_key_type" (VStr (class_name v))
    | Raise _ => content
    end
  else content.

(** Whether [update_bookmark] stores the key of the row: the value is true
    in Python's sense and can be serialized. *)
Definition stores (replication_key_name : keyname) (row : Row) : bool :=
  let v := row_get row replication_key_name in
  truthy v && match class_to_string v (class_name v) with
              | Ok _ => true
              | Raise _ => false
              end.

(** The events of one pass through the loop body before the bookmark is
    advanced: the schema, if it changed, and the record. *)
Definition row_events (stream : Stream) (stream_version : pyval)
    (time_extracted : Z) (schema : Schema) (row : Row) : list event :=
  let dest := calculate_destination_stream_name stream in
  let rec := row_to_singer_record stream row stream_version time_extracted in
  (if (row_to_schema schema row).2
   then [Wrote (SchemaMessage dest (row_to_schema schema row).1 ["_id"])
               (SchemaMessage dest (row_to_schema schema row).1 ["_id"])]
   else [])
  ++ [Wrote (RecordMessage rec) (RecordMessage rec)].

End Reading.

(** The field names seen in the rows. *)
Definition field_names (rows : list Row) : gset string :=
  ⋃ (dom <$> rows).

(** How many of the rows carry a field name that neither [seen] nor an
    earlier row has. *)
Fixpoint schema_changes (seen : gset string) (rows : list Row) : nat :=
  match rows with
  | [] => 0
  | row :: rows =>
      ((if bool_decide (dom row ⊆ seen) then 0 else 1)
       + schema_changes (seen ∪ dom row) rows)%nat
  end.

(** Each schema brings a field name that the one before it, or [seen] for
    the first, does not have, and keeps the fields it had. *)
Fixpoint growing (seen : gmap string string) (l : list Schema) : Prop :=
  match l with
  | [] => True
  | sch :: l =>
      seen ⊆ properties sch ∧ dom seen ≠ dom (properties sch)
      ∧ growing (properties sch) l
  end.

(** * Properties *)

Section Properties.

Context {common : Common}.

(** ** Bookmark dictionaries *)

Lemma bookmark_lookup_insert_eq (c : State) sid k v :
  bookmark_lookup (bookmark_insert c sid k v) sid k = v.
Proof.
  unfold bookmark_lookup, bookmark_insert.
  rewrite lookup_insert_eq. simpl. by rewrite lookup_insert_eq.
Qed.

Lemma bookmark_lookup_insert_ne (c : State) sid k v sid' k' :
  sid ≠ sid' ∨ k ≠ k' →
  bookmark_lookup (bookmark_insert c sid k v) sid' k' = bookmark_lookup c sid' k'.
Proof.
  unfold bookmark_lookup, bookmark_insert. intros Hne.
  destruct (decide (sid = sid')) as [<-|Hs].
  - rewrite lookup_insert_eq. simpl.
    destruct Hne as [Hne|Hne]; [done|]. by rewrite lookup_insert_ne.
  - by rewrite lookup_insert_ne.
Qed.

Lemma stream_lookup_insert_ne (c : State) sid k v k' :
  k ≠ k' →
  default ∅ (bookmark_insert c sid k v !! sid) !! k' = default ∅ (c !! sid) !! k'.
Proof.
  intros Hne. unfold bookmark_insert.
  rewrite lookup_insert_eq. simpl. by rewrite lookup_insert_ne.
Qed.

(** ** The store *)

Lemma deref_insert_eq (h : Heap) l c : deref (<[l := c]> h) l = c.
Proof. unfold deref. by rewrite lookup_insert_eq. Qed.

Lemma deref_insert_ne (h : Heap) l l' c : l ≠ l' → deref (<[l := c]> h) l' = deref h l'.
Proof. intros. unfold deref. by rewrite lookup_insert_ne. Qed.

Lemma fresh_not_live (h : Heap) l : is_Some (h !! l) → fresh (dom h) ≠ l.
Proof.
  intros Hl Heq. apply elem_of_dom in Hl. rewrite <- Heq in Hl.
  by apply is_fresh in Hl.
Qed.

(** A deep copy leaves the content of the copied object as it is, also
    when the reference is dangling. *)
Lemma deref_deepcopy (h : Heap) state :
  deref (<[fresh (dom h) := deref h state]> h) state = deref h state.
Proof.
  destruct (decide (fresh (dom h) = state)) as [->|Hne].
  - apply deref_insert_eq.
  - by apply deref_insert_ne.
Qed.

(** ** update_bookmark *)

Lemma update_bookmark_falsy row state sid key h :
  truthy (row_get row key) = false →
  update_bookmark row state sid key h = (Ok tt, h, []).
Proof. intros Hf. unfold update_bookmark. by rewrite Hf. Qed.

Lemma update_bookmark_raises row state sid key h e :
  truthy (row_get row key) = true →
  class_to_string (row_get row key) (class_name (row_get row key)) = Raise e →
  update_bookmark row state sid key h = (Raise e, h, []).
Proof.
  intros Ht He. unfold update_bookmark. rewrite Ht.
  unfold mbind, M_bind, lift. by rewrite He.
Qed.

Lemma update_bookmark_stores row state sid key h s :
  truthy (row_get row key) = true →
  class_to_string (row_get row key) (class_name (row_get row key)) = Ok s →
  update_bookmark row state sid key h =
    (Ok tt,
     <[state := bookmark_insert
                  (bookmark_insert (deref h state) sid "replication_key_value" (VStr s))
                  sid "replication_key_type" (VStr (class_name (row_get row key)))]> h,
     []).
Proof.
  intros Ht Hs. unfold update_bookmark. rewrite Ht.
  unfold mbind, M_bind, lift, write_bookmark, mret, M_ret. rewrite Hs. simpl.
  rewrite deref_insert_eq. by rewrite insert_insert_eq.
Qed.

(** In every case the content of the state becomes [advance] of what it
    was, nothing is written, and no other object is touched. *)
Lemma update_bookmark_advance row state sid key h :
  ∃ r, update_bookmark row state sid key h =
         (r, (if truthy (row_get row key)
              then match class_to_string (row_get row key)
                           (class_name (row_get row key)) with
                   | Ok _ => <[state := advance sid key (deref h state) row]> h
                   | Raise _ => h
                   end
              else h), [])
       ∧ (r = Ok tt
          ∧ (truthy (row_get row key) = true →
             ∃ s, class_to_string (row_get row key)
                    (class_name (row_get row key)) = Ok s)
          ∨ ∃ e, r = Raise e ∧ truthy (row_get row key) = true
                 ∧ class_to_string (row_get row key)
                     (class_name (row_get row key)) = Raise e).
Proof.
  destruct (truthy (row_get row key)) eqn:Ht.
  - destruct (class_to_string (row_get row key) (class_name (row_get row key)))
      as [s|e] eqn:Hs.
    + exists (Ok tt). split; [|left; eauto].
      rewrite (update_bookmark_stores _ _ _ _ _ s Ht Hs).
      unfold advance. by rewrite Ht, Hs.
    + exists (Raise e). split; [|right; by exists e].
      by apply update_bookmark_raises.
  - exists (Ok tt). split; [|by left]. by apply update_bookmark_falsy.
Qed.

Lemma update_bookmark_stored row state sid key h s :
  truthy (row_get row key) = true →
  class_to_string (row_get row key) (class_name (row_get row key)) = Ok s →
  ∃ h', update_bookmark row state sid key h = (Ok tt, h', [])
    ∧ bookmark_lookup (deref h' state) sid "replication_key_value" = VStr s
    ∧ bookmark_lookup (deref h' state) sid "replication_key_type"
      = VStr (class_name (row_get row key))
    ∧ (∀ sid' k,
         sid' ≠ sid ∨ k ≠ "replication_key_value" ∧ k ≠ "replication_key_type" →
         bookmark_lookup (deref h' state) sid' k
         = bookmark_lookup (deref h state) sid' k)
    ∧ (∀ l, l ≠ state → h' !! l = h !! l).
Proof.
  intros Ht Hs. eexists. split; [by apply update_bookmark_stores|].
  rewrite deref_insert_eq. split.
  { rewrite bookmark_lookup_insert_ne by (right; done).
    apply bookmark_lookup_insert_eq. }
  split; [apply bookmark_lookup_insert_eq|]. split.
  - intros sid' k Hne.
    rewrite !bookmark_lookup_insert_ne; [done| |];
      destruct Hne as [Hne|[Hv Hty]]; auto.
  - intros l Hl. by rewrite lookup_insert_ne.
Qed.

(** ** Advancing the bookmark over rows *)

Lemma advance_skip sid key c row :
  stores key row = false → advance sid key c row = c.
Proof.
  unfold stores, advance. destruct (truthy (row_get row key)); [|done].
  by destruct (class_to_string _ _).
Qed.

Lemma advance_store sid key c row :
  stores key row = true →
  ∃ s, class_to_string (row_get row key) (class_name (row_get row key)) = Ok s
       ∧ truthy (row_get row key) = true
       ∧ bookmark_lookup (advance sid key c row) sid "replication_key_value"
         = VStr s
       ∧ bookmark_lookup (advance sid key c row) sid "replication_key_type"
         = VStr (class_name (row_get row key)).
Proof.
  unfold stores, advance. destruct (truthy (row_get row key)); [|done].
  destruct (class_to_string _ _) as [s|e]; [|done]. intros _.
  exists s. split; [done|]. split; [done|]. split.
  - rewrite bookmark_lookup_insert_ne by (right; done).
    apply bookmark_lookup_insert_eq.
  - apply bookmark_lookup_insert_eq.
Qed.

Lemma advance_other sid key c row sid' k :
  sid' ≠ sid ∨ k ≠ "replication_key_value" ∧ k ≠ "replication_key_type" →
  bookmark_lookup (advance sid key c row) sid' k = bookmark_lookup c sid' k.
Proof.
  intros Hne. unfold advance. destruct (truthy (row_get row key)); [|done].
  destruct (class_to_string _ _); [|done].
  rewrite !bookmark_lookup_insert_ne; [done| |];
    destruct Hne as [Hne|[Hv Hty]]; auto.
Qed.

Lemma foldl_advance_skip sid key c rows :
  Forall (λ row, stores key row = false) rows →
  foldl (advance sid key) c rows = c.
Proof.
  revert c. induction rows as [|row rows IH]; intros c Hall; [done|].
  apply Forall_cons in Hall as [Hrow Hall]. simpl.
  rewrite advance_skip by done. by apply IH.
Qed.

(** After rows of which some store their key, the bookmark is the
    serialization of the key of one of them. *)
Lemma foldl_advance_store sid key c rows :
  Exists (λ row, stores key row = true) rows →
  ∃ row s, row ∈ rows
    ∧ truthy (row_get row key) = true
    ∧ class_to_string (row_get row key) (class_name (row_get row key)) = Ok s
    ∧ bookmark_lookup (foldl (advance sid key) c rows) sid "replication_key_value"
      = VStr s
    ∧ bookmark_lookup (foldl (advance sid key) c rows) sid "replication_key_type"
      = VStr (class_name (row_get row key)).
Proof.
  induction rows as [|x rows IH] using rev_ind; intros Hex.
  - by apply Exists_nil in Hex.
  - rewrite foldl_app. simpl.
    destruct (stores key x) eqn:Hx.
    + destruct (advance_store sid key (foldl (advance sid key) c rows) x Hx)
        as (s & Hs & Ht & Hv & Hty).
      exists x, s. rewrite elem_of_app, list_elem_of_singleton. eauto 10.
    + rewrite advance_skip by done.
      apply Exists_app in Hex as [Hex|Hex].
      * destruct (IH Hex) as (row & s & Hin & Hrest).
        exists row, s. rewrite elem_of_app. eauto.
      * apply Exists_cons in Hex as [Hex|Hex]; [congruence|].
        by apply Exists_nil in Hex.
Qed.

Lemma stores_dec key rows :
  Forall (λ row, stores key row = false) rows
  ∨ Exists (λ row, stores key row = true) rows.
Proof.
  induction rows as [|row rows [IH|IH]].
  - left. constructor.
  - destruct (stores key row) eqn:Hrow.
    + right. by constructor.
    + left. by constructor.
  - right. by apply Exists_cons_tl.
Qed.

(** ** Traces *)

Lemma lines_app t1 t2 : lines (t1 ++ t2) = lines t1 ++ lines t2.
Proof. apply omap_app. Qed.

Lemma count_app p t1 t2 : count p (t1 ++ t2) = (count p t1 + count p t2)%nat.
Proof. unfold count. by rewrite lines_app, List.filter_app, length_app. Qed.

Lemma issued_app t1 t2 : issued (t1 ++ t2) = issued t1 ++ issued t2.
Proof. apply omap_app. Qed.

Lemma schemas_app t1 t2 : schemas (t1 ++ t2) = schemas t1 ++ schemas t2.
Proof. unfold schemas. rewrite lines_app. apply omap_app. Qed.

Lemma count_schema_length t : count is_schema t = length (schemas t).
Proof.
  unfold count, schemas. induction (lines t) as [|m l IH]; [done|].
  destruct m; simpl; rewrite ?IH; done.
Qed.

Lemma row_events_lines stream ver te schema row :
  lines (row_events stream ver te schema row) =
    (if (row_to_schema schema row).2
     then [SchemaMessage (calculate_destination_stream_name stream)
             (row_to_schema schema row).1 ["_id"]]
     else [])
    ++ [RecordMessage (row_to_singer_record stream row ver te)].
Proof. unfold row_events. by destruct (row_to_schema schema row).2. Qed.

Lemma row_events_count stream ver te schema row p :
  p (RecordMessage (row_to_singer_record stream row ver te)) = false →
  p (SchemaMessage (calculate_destination_stream_name stream)
       (row_to_schema schema row).1 ["_id"]) = false →
  count p (row_events stream ver te schema row) = 0%nat.
Proof.
  intros Hr Hs. unfold count. rewrite row_events_lines.
  destruct (row_to_schema schema row).2; simpl; rewrite ?Hs, ?Hr; done.
Qed.

Lemma row_events_records stream ver te schema row :
  count is_record (row_events stream ver te schema row) = 1%nat.
Proof.
  unfold count. rewrite row_events_lines.
  by destruct (row_to_schema schema row).2.
Qed.

Lemma row_events_issued stream ver te schema row :
  issued (row_events stream ver te schema row) = [].
Proof. unfold row_events. by destruct (row_to_schema schema row).2. Qed.

Lemma row_events_schemas stream ver te schema row :
  schemas (row_events stream ver te schema row) =
    if (row_to_schema schema row).2 then [(row_to_schema schema row).1] else [].
Proof.
  unfold schemas. rewrite row_events_lines.
  by destruct (row_to_schema schema row).2.
Qed.

Lemma row_events_state_free m c stream ver te schema row :
  Wrote m (StateMessage c) ∉ row_events stream ver te schema row.
Proof.
  intros Hin. unfold row_events in Hin.
  destruct (row_to_schema schema row).2; simpl in Hin;
    repeat (apply elem_of_cons in Hin as [[=]|Hin]);
    by apply elem_of_nil in Hin.
Qed.

(** A trace that splits around a checkpoint, against a trace that starts
    with the events of a row: the checkpoint is not among those events. *)
Lemma split_at_checkpoint (tr t' t1 t2 : list event) m c :
  Wrote m (StateMessage c) ∉ tr →
  tr ++ t' = t1 ++ Wrote m (StateMessage c) :: t2 →
  ∃ l, t1 = tr ++ l ∧ t' = l ++ Wrote m (StateMessage c) :: t2.
Proof.
  intros Hnot Heq. apply app_eq_app in Heq as [l [[-> Hl]|[-> Hl]]].
  - destruct l as [|ev l].
    + exists []. simpl in Hl. by rewrite !app_nil_r.
    + injection Hl as <- ->. exfalso. apply Hnot.
      apply elem_of_app. right. by left.
  - by exists l.
Qed.

Lemma split_head (t0 tail t1 t2 : list event) ev0 m c :
  Wrote m (StateMessage c) ∉ t0 →
  t0 ++ ev0 :: tail = t1 ++ Wrote m (StateMessage c) :: t2 →
  t1 = t0 ∧ ev0 = Wrote m (StateMessage c) ∧ t2 = tail
  ∨ ∃ l, t1 = t0 ++ ev0 :: l ∧ tail = l ++ Wrote m (StateMessage c) :: t2.
Proof.
  intros Hnot Heq. apply split_at_checkpoint in Heq as (l & -> & Heq); [|done].
  destruct l as [|ev l].
  - left. injection Heq as -> ->. by rewrite app_nil_r.
  - right. injection Heq as -> ->. by exists l.
Qed.

Lemma split_last (t3 l t2 : list event) ev x :
  ev ≠ x →
  t3 ++ [x] = l ++ ev :: t2 →
  ∃ t2', t2 = t2' ++ [x] ∧ t3 = l ++ ev :: t2'.
Proof.
  intros Hne Heq. destruct t2 as [|y t2 _] using rev_ind.
  - apply app_inj_tail in Heq as [_ <-]. done.
  - rewrite app_comm_cons, app_assoc in Heq.
    apply app_inj_tail in Heq as [-> ->]. by exists t2.
Qed.

(** ** The loop body *)

Lemma process_row_eq stream state key ver te schema n row h :
  process_row stream state key ver te schema n row h =
    match update_bookmark row state (tap_stream_id stream) key h with
    | (Ok _, hb, tb) =>
        if (UPDATE_BOOKMARK_PERIOD =? 0)%Z
        then (Raise ZeroDivisionError, hb, row_events stream ver te schema row ++ tb)
        else if ((n + 1) mod UPDATE_BOOKMARK_PERIOD =? 0)%Z
        then (Ok ((row_to_schema schema row).1, (n + 1)%Z),
              <[fresh (dom hb) := deref hb state]> hb,
              row_events stream ver te schema row ++ tb
              ++ [Wrote (StateMessage (fresh (dom hb)))
                        (StateMessage (deref hb state))])
        else (Ok ((row_to_schema schema row).1, (n + 1)%Z), hb,
              row_events stream ver te schema row ++ tb)
    | (Raise e, hb, tb) =>
        (Raise e, hb, row_events stream ver te schema row ++ tb)
    end.
Proof.
  unfold process_row, row_events.
  destruct (row_to_schema schema row) as [sch changed]. simpl.
  unfold mbind, M_bind, mret, M_ret, write_message, raise, deepcopy. simpl.
  destruct changed; simpl;
    destruct (update_bookmark row state (tap_stream_id stream) key h)
      as [[[[]|e] hb] tb]; simpl; try reflexivity;
    destruct (UPDATE_BOOKMARK_PERIOD =? 0)%Z; simpl;
      rewrite ?app_nil_r; try reflexivity;
    destruct ((n + 1) mod UPDATE_BOOKMARK_PERIOD =? 0)%Z; simpl;
      rewrite ?app_nil_r, ?deref_insert_eq; reflexivity.
Qed.

(** One pass through the loop body, whatever its outcome: the state
    advances by the row, objects other than the state stay as they are,
    and the trace is the row's events, followed by a checkpoint that holds
    a new object with the state's content when the row count says so. *)
Lemma process_row_step stream state key ver te schema n row h r h' t :
  process_row stream state key ver te schema n row h = (r, h', t) →
  let content := advance (tap_stream_id stream) key (deref h state) row in
  deref h' state = content
  ∧ (∀ l, is_Some (h !! l) → l ≠ state → h' !! l = h !! l)
  ∧ (∀ l, is_Some (h !! l) → is_Some (h' !! l))
  ∧ ((r = Ok ((row_to_schema schema row).1, (n + 1)%Z)
      ∧ UPDATE_BOOKMARK_PERIOD ≠ 0%Z
      ∧ (truthy (row_get row key) = true →
         ∃ s, class_to_string (row_get row key)
                (class_name (row_get row key)) = Ok s)
      ∧ (((n + 1) mod UPDATE_BOOKMARK_PERIOD ≠ 0)%Z
         ∧ t = row_events stream ver te schema row
         ∨ ((n + 1) mod UPDATE_BOOKMARK_PERIOD = 0)%Z
           ∧ ∃ l, h !! l = None ∧ (is_Some (h !! state) → l ≠ state)
                  ∧ h' !! l = Some content
                  ∧ t = row_events stream ver te schema row
                        ++ [Wrote (StateMessage l) (StateMessage content)]))
     ∨ (∃ e, r = Raise e ∧ t = row_events stream ver te schema row)).
Proof.
  intros Hrun content. subst content. rewrite process_row_eq in Hrun.
  destruct (update_bookmark_advance row state (tap_stream_id stream) key h)
    as (rb & Hub & Hrb).
  rewrite Hub in Hrun. clear Hub.
  set (content := advance (tap_stream_id stream) key (deref h state) row) in *.
  set (hb := if truthy (row_get row key)
             then match class_to_string (row_get row key)
                          (class_name (row_get row key)) with
                  | Ok _ => <[state := content]> h
                  | Raise _ => h
                  end
             else h) in *.
  assert (Hcontent : deref hb state = content).
  { unfold hb, content, advance.
    destruct (truthy (row_get row key)); [|done].
    destruct (class_to_string _ _); [|done]. apply deref_insert_eq. }
  assert (Hframe : ∀ l, l ≠ state → hb !! l = h !! l).
  { intros l Hl. unfold hb.
    destruct (truthy (row_get row key)); [|done].
    destruct (class_to_string _ _); [|done]. by rewrite lookup_insert_ne. }
  assert (Hlive : ∀ l, is_Some (h !! l) → is_Some (hb !! l)).
  { intros l Hl. destruct (decide (l = state)) as [->|Hne].
    - unfold hb. destruct (truthy (row_get row key)); [|done].
      destruct (class_to_string _ _); [|done]. rewrite lookup_insert_eq. eauto.
    - by rewrite Hframe. }
  clearbody hb.
  destruct Hrb as [[-> Hser]|(e & -> & _ & _)].
  - destruct (UPDATE_BOOKMARK_PERIOD =? 0)%Z eqn:HN.
    { injection Hrun as <- <- <-. rewrite app_nil_r.
      split; [done|]. split; [intros; by apply Hframe|]. split; [done|].
      right. by eexists. }
    apply Z.eqb_neq in HN.
    destruct ((n + 1) mod UPDATE_BOOKMARK_PERIOD =? 0)%Z eqn:Hmod.
    + apply Z.eqb_eq in Hmod. injection Hrun as <- <- <-.
      split; [by rewrite deref_deepcopy|].
      split.
      { intros l Hl Hne. rewrite lookup_insert_ne; [by apply Hframe|].
        apply fresh_not_live. rewrite Hframe; done. }
      split.
      { intros l Hl. destruct (decide (fresh (dom hb) = l)) as [<-|Hne].
        - rewrite lookup_insert_eq. eauto.
        - rewrite lookup_insert_ne; auto. }
      left. split; [done|]. split; [done|]. split; [done|]. right.
      split; [done|].
      exists (fresh (dom hb)). rewrite Hcontent.
      split.
      { destruct (h !! fresh (dom hb)) eqn:Hh; [|done].
        exfalso. eapply fresh_not_live; [|reflexivity]. apply Hlive. eauto. }
      split.
      { intros Hs. apply fresh_not_live. by apply Hlive. }
      split; [by rewrite lookup_insert_eq|done].
    + apply Z.eqb_neq in Hmod. injection Hrun as <- <- <-. rewrite app_nil_r.
      split; [done|]. split; [intros; by apply Hframe|]. split; [done|].
      left. split; [done|]. split; [done|]. split; [done|]. by left.
  - injection Hrun as <- <- <-. rewrite app_nil_r.
    split; [done|]. split; [intros; by apply Hframe|]. split; [done|].
    right. by eexists.
Qed.

(** ** The loop *)

(** Reasoning on a run of the loop goes row by row: the loop stops at the
    first row whose processing raises, and goes on from the store and the
    local variables a processed row leaves. *)
Lemma stream_rows_cases stream state key ver te
    (P : Schema → Z → list Row → Heap → result (Schema * Z) → Heap
         → list event → Prop) :
  (∀ schema n h, P schema n [] h (Ok (schema, n)) h []) →
  (∀ schema n row rows h e h1 t1,
     process_row stream state key ver te schema n row h = (Raise e, h1, t1) →
     P schema n (row :: rows) h (Raise e) h1 t1) →
  (∀ schema n row rows h s1 n1 h1 t1 r h2 t2,
     process_row stream state key ver te schema n row h = (Ok (s1, n1), h1, t1) →
     stream_rows stream state key ver te s1 n1 rows h1 = (r, h2, t2) →
     P s1 n1 rows h1 r h2 t2 →
     P schema n (row :: rows) h r h2 (t1 ++ t2)) →
  ∀ rows schema n h r h' t,
    stream_rows stream state key ver te schema n rows h = (r, h', t) →
    P schema n rows h r h' t.
Proof.
  intros Hnil Hraise Hcons rows.
  induction rows as [|row rows IH]; intros schema n h r h' t Hrun.
  - injection Hrun as <- <- <-. apply Hnil.
  - simpl in Hrun. unfold mbind, M_bind in Hrun.
    destruct (process_row stream state key ver te schema n row h)
      as [[[[s1 n1]|e] h1] t1] eqn:Hrow.
    + destruct (stream_rows stream state key ver te s1 n1 rows h1)
        as [[r2 h2] t2] eqn:Hrest.
      injection Hrun as <- <- <-. eapply Hcons; eauto.
    + injection Hrun as <- <- <-. by apply Hraise.
Qed.

Lemma stream_rows_app stream state key ver te schema n pre post h :
  stream_rows stream state key ver te schema n (pre ++ post) h =
    match stream_rows stream state key ver te schema n pre h with
    | (Ok (s1, n1), h1, t1) =>
        let '(r, h2, t2) := stream_rows stream state key ver te s1 n1 post h1 in
        (r, h2, t1 ++ t2)
    | (Raise e, h1, t1) => (Raise e, h1, t1)
    end.
Proof.
  revert schema n h. induction pre as [|row pre IH]; intros schema n h.
  - simpl. by destruct (stream_rows stream state key ver te schema n post h)
      as [[r h2] t2].
  - simpl. unfold mbind, M_bind.
    destruct (process_row stream state key ver te schema n row h)
      as [[[[s1 n1]|e] h1] t1]; [|done].
    rewrite IH.
    destruct (stream_rows stream state key ver te s1 n1 pre h1)
      as [[[[s2 n2]|e] h2] t2]; [|done].
    destruct (stream_rows stream state key ver te s2 n2 post h2)
      as [[r h3] t3].
    by rewrite app_assoc.
Qed.

(** The content of the state after the loop: the rows processed, in order,
    each advancing the bookmark. *)
Lemma stream_rows_content stream state key ver te rows schema n h r h' t :
  stream_rows stream state key ver te schema n rows h = (r, h', t) →
  ∃ k, (k ≤ length rows)%nat
       ∧ deref h' state
         = foldl (advance (tap_stream_id stream) key) (deref h state) (take k rows)
       ∧ (∀ s1 n1, r = Ok (s1, n1) →
            k = length rows ∧ n1 = (n + Z.of_nat (length rows))%Z).
Proof.
  revert rows schema n h r h' t.
  apply (stream_rows_cases stream state key ver te
    (λ schema n rows h r h' t,
       ∃ k, (k ≤ length rows)%nat
            ∧ deref h' state
              = foldl (advance (tap_stream_id stream) key) (deref h state)
                  (take k rows)
            ∧ (∀ s1 n1, r = Ok (s1, n1) →
                 k = length rows ∧ n1 = (n + Z.of_nat (length rows))%Z))).
  - intros schema n h. exists 0%nat. simpl. split; [lia|]. split; [done|].
    intros s1 n1 [= <- <-]. split; [done|lia].
  - intros schema n row rows h e h1 t1 Hrow.
    apply process_row_step in Hrow as (Hc & _).
    exists 1%nat. simpl. split; [lia|]. split; [|done].
    destruct rows; exact Hc.
  - intros schema n row rows h s1 n1 h1 t1 r h2 t2 Hrow _ (k & Hk & Hc2 & Hok).
    apply process_row_step in Hrow as (Hc & _ & _ & [(Heq & _)|(e & Heq & _)]);
      [|done].
    injection Heq as -> ->.
    exists (S k). simpl. split; [lia|]. split; [by rewrite Hc2, Hc|].
    intros s2 n2 Hr. destruct (Hok s2 n2 Hr) as [-> ->]. split; [done|lia].
Qed.

(** A run of the loop that ends normally serialized every key it met. *)
Lemma stream_rows_serialized stream state key ver te rows schema n h s1 n1 h' t :
  stream_rows stream state key ver te schema n rows h = (Ok (s1, n1), h', t) →
  Forall (λ row, truthy (row_get row key) = true → stores key row = true) rows.
Proof.
  intros Hrun.
  enough (Hgen : ∀ rows schema n h r h' t,
    stream_rows stream state key ver te schema n rows h = (r, h', t) →
    (∃ res, r = Ok res) →
    Forall (λ row, truthy (row_get row key) = true → stores key row = true) rows)
    by (eapply Hgen; eauto).
  apply (stream_rows_cases stream state key ver te
    (λ schema n rows h r h' t,
       (∃ res, r = Ok res) →
       Forall (λ row, truthy (row_get row key) = true → stores key row = true)
         rows)).
  - intros. constructor.
  - intros ???????? _ [? [=]].
  - intros schema0 n0 row rows0 h0 s2 n2 h1 t1 r h2 t2 Hrow _ IH Hok.
    constructor; [|by apply IH].
    apply process_row_step in Hrow
      as (_ & _ & _ & [(_ & _ & Hser & _)|(e & [=] & _)]).
    intros Ht. unfold stores. rewrite Ht. by destruct (Hser Ht) as [s ->].
Qed.

(** The loop ends normally when the period is not zero and every key it
    meets that is true in Python's sense can be serialized. *)
Lemma stream_rows_completes stream state key ver te rows schema n h :
  UPDATE_BOOKMARK_PERIOD ≠ 0%Z →
  Forall (λ row, truthy (row_get row key) = true → stores key row = true) rows →
  ∃ s1 n1 h' t,
    stream_rows stream state key ver te schema n rows h = (Ok (s1, n1), h', t).
Proof.
  intros HN. revert schema n h.
  induction rows as [|row rows IH]; intros schema n h Hall.
  - by exists schema, n, h, [].
  - apply Forall_cons in Hall as [Hrow Hall]. simpl. unfold mbind, M_bind.
    rewrite process_row_eq.
    destruct (update_bookmark_advance row state (tap_stream_id stream) key h)
      as (rb & -> & [[-> _]|(e & -> & Ht & He)]).
    + apply Z.eqb_neq in HN. rewrite HN.
      destruct ((n + 1) mod UPDATE_BOOKMARK_PERIOD =? 0)%Z;
        match goal with
        | |- context [stream_rows _ _ _ _ _ ?s ?m rows ?hh] =>
            destruct (IH s m hh Hall) as (s1 & n1 & h' & t & ->)
        end; eauto.
    + specialize (Hrow Ht). unfold stores in Hrow. by rewrite Ht, He in Hrow.
Qed.

(** What holds of the content of the state and is kept by advancing the
    bookmark holds of the state after the loop and of every checkpoint the
    loop writes, whatever the outcome. *)
Lemma stream_rows_invariant stream state key ver te (P : State → Prop)
    rows schema n h r h' t :
  (∀ c row, P c → P (advance (tap_stream_id stream) key c row)) →
  stream_rows stream state key ver te schema n rows h = (r, h', t) →
  P (deref h state) →
  P (deref h' state) ∧ ∀ m c, Wrote m (StateMessage c) ∈ t → P c.
Proof.
  intros Hkeep. revert rows schema n h r h' t.
  apply (stream_rows_cases stream state key ver te
    (λ schema n rows h r h' t,
       P (deref h state) →
       P (deref h' state) ∧ ∀ m c, Wrote m (StateMessage c) ∈ t → P c)).
  - intros schema n h HP. split; [done|]. intros m c Hin.
    by apply elem_of_nil in Hin.
  - intros schema n row rows h e h1 t1 Hrow HP.
    apply process_row_step in Hrow
      as (Hc & _ & _ & [([=] & _)|(e' & _ & ->)]).
    rewrite Hc. split; [by apply Hkeep|].
    intros m c Hin. unfold row_events in Hin.
    destruct (row_to_schema schema row).2; simpl in Hin;
      repeat (apply elem_of_cons in Hin as [[=]|Hin]);
      by apply elem_of_nil in Hin.
  - intros schema n row rows h s1 n1 h1 t1 r h2 t2 Hrow _ IH HP.
    apply process_row_step in Hrow as (Hc & _ & _ & Hcases).
    assert (HP1 : P (deref h1 state)) by (rewrite Hc; by apply Hkeep).
    destruct (IH HP1) as [IHs IHt]. split; [done|].
    intros m c Hin. apply elem_of_app in Hin as [Hin|Hin]; [|by eapply IHt].
    assert (Hrow_events : ∀ sch, Wrote m (StateMessage c)
                                 ∈ row_events stream ver te sch row → False).
    { intros sch Hin'. unfold row_events in Hin'.
      destruct (row_to_schema sch row).2; simpl in Hin';
        repeat (apply elem_of_cons in Hin' as [[=]|Hin']);
        by apply elem_of_nil in Hin'. }
    destruct Hcases as [(_ & _ & _ & [[_ ->]|(_ & l & _ & _ & _ & ->)])
                       |(e & [=] & _)].
    + by apply Hrow_events in Hin.
    + apply elem_of_app in Hin as [Hin|Hin]; [by apply Hrow_events in Hin|].
      apply list_elem_of_singleton in Hin. injection Hin as _ ->.
      by apply Hkeep.
Qed.

(** ** What the loop writes *)

Lemma div_succ (n N : Z) :
  (0 < N)%Z →
  ((n + 1) / N = n / N + (if ((n + 1) mod N =? 0) then 1 else 0))%Z.
Proof.
  intros HN.
  pose proof (Z.div_mod n N ltac:(lia)) as Hn.
  pose proof (Z.mod_pos_bound n N HN) as Hr.
  destruct (Z.eq_dec (n mod N + 1)%Z N) as [Heq|Hne].
  - assert (Hdiv : ((n + 1) / N = n / N + 1)%Z).
    { symmetry. apply (Z.div_unique (n + 1) N (n / N + 1) 0)%Z; lia. }
    assert (Hmod : ((n + 1) mod N = 0)%Z).
    { symmetry. apply (Z.mod_unique (n + 1) N (n / N + 1) 0)%Z; lia. }
    rewrite Hdiv, Hmod. reflexivity.
  - assert (Hdiv : ((n + 1) / N = n / N)%Z).
    { symmetry. apply (Z.div_unique (n + 1) N (n / N) (n mod N + 1))%Z; lia. }
    assert (Hmod : ((n + 1) mod N = n mod N + 1)%Z).
    { symmetry. apply (Z.mod_unique (n + 1) N (n / N) (n mod N + 1))%Z; lia. }
    rewrite Hdiv, Hmod.
    destruct (Z.eqb_spec (n mod N + 1)%Z 0%Z); lia.
Qed.

(** The loop writes no activation and makes no query, whatever its
    outcome. *)
Lemma stream_rows_quiet stream state key ver te rows schema n h r h' t :
  stream_rows stream state key ver te schema n rows h = (r, h', t) →
  count is_activate t = 0%nat ∧ issued t = [].
Proof.
  revert rows schema n h r h' t.
  apply (stream_rows_cases stream state key ver te
    (λ schema n rows h r h' t, count is_activate t = 0%nat ∧ issued t = [])).
  - done.
  - intros schema n row rows h e h1 t1 Hrow.
    apply process_row_step in Hrow
      as (_ & _ & _ & [(? & _)|(e' & _ & ->)]); [done|].
    by rewrite row_events_count, row_events_issued.
  - intros schema n row rows h s1 n1 h1 t1 r h2 t2 Hrow _ [IHa IHq].
    rewrite count_app, issued_app, IHa, IHq.
    apply process_row_step in Hrow
      as (_ & _ & _ & [(_ & _ & _ & [[_ ->]|(_ & l & _ & _ & _ & ->)])
                      |(e & [=] & _)]).
    + by rewrite row_events_count, row_events_issued.
    + by rewrite count_app, issued_app, row_events_count, row_events_issued.
Qed.

(** A run of the loop that ends normally wrote one record for each row. *)
Lemma stream_rows_records stream state key ver te rows schema n h s1 n1 h' t :
  stream_rows stream state key ver te schema n rows h = (Ok (s1, n1), h', t) →
  count is_record t = length rows.
Proof.
  intros Hrun.
  enough (Hgen : ∀ rows schema n h r h' t,
    stream_rows stream state key ver te schema n rows h = (r, h', t) →
    (∃ res, r = Ok res) → count is_record t = length rows)
    by (eapply Hgen; eauto).
  clear Hrun.
  apply (stream_rows_cases stream state key ver te
    (λ schema n rows h r h' t,
       (∃ res, r = Ok res) → count is_record t = length rows)).
  - done.
  - intros ???????? _ [? [=]].
  - intros schema0 n0 row rows0 h0 s2 n2 h1 t1 r h2 t2 Hrow _ IH Hok.
    rewrite count_app, (IH Hok).
    apply process_row_step in Hrow
      as (_ & _ & _ & [(_ & _ & _ & [[_ ->]|(_ & l & _ & _ & _ & ->)])
                      |(e & [=] & _)]).
    + by rewrite row_events_records.
    + by rewrite count_app, row_events_records.
Qed.

(** A run of the loop that ends normally wrote one record for each row
    and one checkpoint each time the row count reached a multiple of the
    period. *)
Lemma stream_rows_counts stream state key ver te rows schema n h s1 n1 h' t :
  (0 < UPDATE_BOOKMARK_PERIOD)%Z →
  stream_rows stream state key ver te schema n rows h = (Ok (s1, n1), h', t) →
  count is_record t = length rows
  ∧ Z.of_nat (count is_state t)
    = ((n + Z.of_nat (length rows)) / UPDATE_BOOKMARK_PERIOD
       - n / UPDATE_BOOKMARK_PERIOD)%Z.
Proof.
  intros HN Hrun.
  enough (Hgen : ∀ rows schema n h r h' t,
    stream_rows stream state key ver te schema n rows h = (r, h', t) →
    (∃ res, r = Ok res) →
    count is_record t = length rows
    ∧ Z.of_nat (count is_state t)
      = ((n + Z.of_nat (length rows)) / UPDATE_BOOKMARK_PERIOD
         - n / UPDATE_BOOKMARK_PERIOD)%Z)
    by (eapply Hgen; eauto).
  clear Hrun.
  apply (stream_rows_cases stream state key ver te
    (λ schema n rows h r h' t,
       (∃ res, r = Ok res) →
       count is_record t = length rows
       ∧ Z.of_nat (count is_state t)
         = ((n + Z.of_nat (length rows)) / UPDATE_BOOKMARK_PERIOD
            - n / UPDATE_BOOKMARK_PERIOD)%Z)).
  - intros schema0 n0 h0 _. split; [done|]. simpl.
    rewrite Z.add_0_r. unfold count. simpl. lia.
  - intros ???????? _ [? [=]].
  - intros schema0 n0 row rows0 h0 s2 n2 h1 t1 r h2 t2 Hrow _ IH Hok.
    destruct (IH Hok) as [IHr IHs]. rewrite !count_app, IHr.
    rewrite Nat2Z.inj_add, IHs. simpl length.
    pose proof (div_succ n0 UPDATE_BOOKMARK_PERIOD HN) as Hdiv.
    apply process_row_step in Hrow
      as (_ & _ & _ & [(Heq & _ & _ & [[Hmod ->]|(Hmod & l & _ & _ & _ & ->)])
                      |(e & [=] & _)]);
      injection Heq as -> ->.
    + rewrite row_events_records, row_events_count by done.
      apply Z.eqb_neq in Hmod. rewrite Hmod in Hdiv.
      split; [done|].
      replace (n0 + Z.of_nat (S (length rows0)))%Z
        with (n0 + 1 + Z.of_nat (length rows0))%Z by lia.
      lia.
    + rewrite !count_app, row_events_records, row_events_count by done.
      apply Z.eqb_eq in Hmod. rewrite Hmod in Hdiv.
      split; [done|].
      replace (n0 + Z.of_nat (S (length rows0)))%Z
        with (n0 + 1 + Z.of_nat (length rows0))%Z by lia.
      unfold count at 1. simpl. lia.
Qed.

(** The store around the loop: the state object stays alive, the objects
    that were there, the state apart, are as they were, and each
    checkpoint written holds a new object, other than the state, whose
    content at the end is what was written. *)
Lemma stream_rows_frame stream state key ver te rows schema n h r h' t :
  stream_rows stream state key ver te schema n rows h = (r, h', t) →
  is_Some (h !! state) →
  (∀ l, is_Some (h !! l) → is_Some (h' !! l))
  ∧ (∀ l, is_Some (h !! l) → l ≠ state → h' !! l = h !! l)
  ∧ (∀ m line, Wrote m line ∈ t → is_state line = true →
       ∃ l c, m = StateMessage l ∧ line = StateMessage c
              ∧ h !! l = None ∧ l ≠ state ∧ h' !! l = Some c).
Proof.
  revert rows schema n h r h' t.
  apply (stream_rows_cases stream state key ver te
    (λ schema n rows h r h' t,
       is_Some (h !! state) →
       (∀ l, is_Some (h !! l) → is_Some (h' !! l))
       ∧ (∀ l, is_Some (h !! l) → l ≠ state → h' !! l = h !! l)
       ∧ (∀ m line, Wrote m line ∈ t → is_state line = true →
            ∃ l c, m = StateMessage l ∧ line = StateMessage c
                   ∧ h !! l = None ∧ l ≠ state ∧ h' !! l = Some c))).
  - intros schema n h _. split; [done|]. split; [done|].
    intros m line Hin. by apply elem_of_nil in Hin.
  - intros schema n row rows h e h1 t1 Hrow Hlive.
    apply process_row_step in Hrow
      as (_ & Hframe & Hkeep & [([=] & _)|(e' & _ & ->)]).
    split; [done|]. split; [done|].
    intros m line Hin Hst. unfold row_events in Hin.
    destruct (row_to_schema schema row).2; simpl in Hin;
      repeat (apply elem_of_cons in Hin as [[= -> ->]|Hin]; [discriminate|]);
      by apply elem_of_nil in Hin.
  - intros schema n row rows h s1 n1 h1 t1 r h2 t2 Hrow _ IH Hlive.
    apply process_row_step in Hrow as (_ & Hframe & Hkeep & Hcases).
    destruct (IH (Hkeep _ Hlive)) as (IHkeep & IHframe & IHt).
    split; [by auto|]. split.
    { intros l Hl Hne. rewrite IHframe by auto. by apply Hframe. }
    assert (Hrow_events : ∀ m line,
      Wrote m line ∈ row_events stream ver te schema row →
      is_state line = true → False).
    { intros m line Hin Hst. unfold row_events in Hin.
      destruct (row_to_schema schema row).2; simpl in Hin;
        repeat (apply elem_of_cons in Hin as [[= -> ->]|Hin]; [discriminate|]);
        by apply elem_of_nil in Hin. }
    intros m line Hin Hst. apply elem_of_app in Hin as [Hin|Hin].
    + destruct Hcases as [(_ & _ & _ & [[_ ->]|(_ & l0 & Hnew & Hne & Hl0 & ->)])
                         |(e & [=] & _)].
      * by destruct (Hrow_events _ _ Hin Hst).
      * apply elem_of_app in Hin as [Hin|Hin];
          [by destruct (Hrow_events _ _ Hin Hst)|].
        apply list_elem_of_singleton in Hin. injection Hin as -> ->.
        eexists l0, _. split; [done|]. split; [done|]. split; [done|].
        split; [by auto|].
        rewrite IHframe; [done|by rewrite Hl0|by auto].
    + destruct (IHt _ _ Hin Hst) as (l & c & -> & -> & Hnew & Hne & Hl).
      exists l, c. split; [done|]. split; [done|]. split; [|done].
      destruct (h !! l) eqn:Hhl; [|done].
      exfalso. destruct (Hkeep l) as [? Hsome]; [by eauto|]. congruence.
Qed.

(** Each checkpoint the loop writes holds the state as it is at that
    time: advanced by the rows whose records are written before it, and
    by no other.  It comes after at least one record, when the number of
    rows so far is a multiple of the period. *)
Lemma stream_rows_checkpoints stream state key ver te rows schema n h r h' t :
  stream_rows stream state key ver te schema n rows h = (r, h', t) →
  ∀ t1 m c t2,
    t = t1 ++ Wrote m (StateMessage c) :: t2 →
    c = foldl (advance (tap_stream_id stream) key) (deref h state)
          (take (count is_record t1) rows)
    ∧ (0 < count is_record t1)%nat
    ∧ ((n + Z.of_nat (count is_record t1)) mod UPDATE_BOOKMARK_PERIOD = 0)%Z.
Proof.
  revert rows schema n h r h' t.
  apply (stream_rows_cases stream state key ver te
    (λ schema n rows h r h' t,
       ∀ t1 m c t2,
         t = t1 ++ Wrote m (StateMessage c) :: t2 →
         c = foldl (advance (tap_stream_id stream) key) (deref h state)
               (take (count is_record t1) rows)
         ∧ (0 < count is_record t1)%nat
         ∧ ((n + Z.of_nat (count is_record t1)) mod UPDATE_BOOKMARK_PERIOD
            = 0)%Z)).
  - intros schema n h t1 m c t2 Heq. by destruct t1.
  - intros schema n row rows h e h1 t1 Hrow t1' m c t2 Heq.
    apply process_row_step in Hrow as (_ & _ & _ & [([=] & _)|(e' & _ & ->)]).
    exfalso. apply (row_events_state_free m c stream ver te schema row).
    rewrite Heq. apply elem_of_app. right. by left.
  - intros schema n row rows h s1 n1 h1 t1 r h2 t2 Hrow _ IH t1' m c t2' Heq.
    apply process_row_step in Hrow as (Hc & _ & _ & Hcases).
    pose proof (row_events_state_free m c stream ver te schema row) as Hfree.
    destruct Hcases as [(Hr & _ & _ & [[_ ->]|(Hmod & l0 & _ & _ & _ & ->)])
                       |(e & [=] & _)]; injection Hr as -> ->.
    + apply split_at_checkpoint in Heq as (l & -> & ->); [|done].
      destruct (IH _ _ _ _ eq_refl) as (IHc & IHpos & IHmod).
      rewrite count_app, row_events_records. simpl.
      split; [by rewrite IHc, Hc|]. split; [lia|].
      rewrite <- IHmod. f_equal. lia.
    + rewrite <- app_assoc in Heq.
      apply split_at_checkpoint in Heq as (l & -> & Heq); [|done].
      rewrite count_app, row_events_records. simpl.
      destruct l as [|ev l].
      * injection Heq as _ <- _. unfold count. simpl.
        split; [done|]. split; [lia|]. rewrite <- Hmod. f_equal.
      * injection Heq as <- ->.
        destruct (IH _ _ _ _ eq_refl) as (IHc & IHpos & IHmod).
        change (count is_record (Wrote (StateMessage l0) _ :: l))
          with (count is_record l).
        split; [by rewrite IHc, Hc|]. split; [lia|].
        rewrite <- IHmod. f_equal. lia.
Qed.

(** ** The running schema *)

Lemma field_names_cons row rows :
  field_names (row :: rows) = dom row ∪ field_names rows.
Proof. done. Qed.

Lemma schema_changes_le_size seen rows :
  (schema_changes seen rows ≤ size (field_names rows ∖ seen))%nat.
Proof.
  revert seen. induction rows as [|row rows IH]; intros seen; [simpl; lia|].
  rewrite field_names_cons. cbn [schema_changes].
  specialize (IH (seen ∪ dom row)).
  set (names := field_names rows) in *. set (fields := dom row) in *.
  clearbody names fields.
  case_bool_decide as Hsub.
  - etrans; [exact IH|]. apply subseteq_size. set_solver.
  - destruct (decide (fields ∖ seen = ∅)) as [Hempty|Hne];
      [exfalso; apply Hsub; set_solver|].
    apply set_choose_L in Hne as [x Hx].
    assert (Hsize : size ({[x]} ∪ names ∖ (seen ∪ fields))
                    = S (size (names ∖ (seen ∪ fields)))).
    { rewrite size_union by set_solver. by rewrite size_singleton. }
    etrans; [|apply (subseteq_size ({[x]} ∪ names ∖ (seen ∪ fields)));
              set_solver].
    rewrite Hsize. simpl. lia.
Qed.

Lemma schema_changes_le_length seen rows :
  (schema_changes seen rows ≤ length rows)%nat.
Proof.
  revert seen. induction rows as [|row rows IH]; intros seen; simpl; [lia|].
  specialize (IH (seen ∪ dom row)). case_bool_decide; lia.
Qed.

(** The count looks at the field names only, not at the values. *)
Lemma schema_changes_names seen (rows rows' : list Row) :
  dom <$> rows' = dom <$> rows →
  schema_changes seen rows' = schema_changes seen rows.
Proof.
  revert seen rows'. induction rows as [|row rows IH]; intros seen rows' Heq.
  - by destruct rows'.
  - destruct rows' as [|row' rows']; [done|].
    injection Heq as Hrow Hrows. simpl. rewrite Hrow. by rewrite (IH _ _ Hrows).
Qed.

Lemma union_known_fields (props : gmap string string) (row : Row) :
  dom row ⊆ dom props → props ∪ (class_name <$> row) = props.
Proof.
  intros Hsub. apply map_eq. intros i. rewrite lookup_union.
  destruct (props !! i) eqn:Hi.
  - by destruct ((class_name <$> row) !! i).
  - assert (Hrow : row !! i = None).
    { apply not_elem_of_dom. intros Hin. apply Hsub in Hin.
      by apply not_elem_of_dom in Hi. }
    by rewrite lookup_fmap, Hrow.
Qed.

(** With [row_to_schema] as the spec has it: the schemas a run of the loop
    writes grow by name, one for each row that carries a name not seen so
    far, up to the schema the loop ends with, which has all the names. *)
Lemma stream_rows_schemas stream state key ver te rows schema n h s1 n1 h' t :
  row_to_schema = spec_row_to_schema →
  stream_rows stream state key ver te schema n rows h = (Ok (s1, n1), h', t) →
  growing (properties schema) (schemas t)
  ∧ length (schemas t) = schema_changes (dom (properties schema)) rows
  ∧ dom (properties s1) = dom (properties schema) ∪ field_names rows
  ∧ (∀ sch, last (schemas t) = Some sch → properties sch = properties s1)
  ∧ (schemas t = [] → properties s1 = properties schema).
Proof.
  intros Hspec Hrun.
  enough (Hgen : ∀ rows schema n h r h' t,
    stream_rows stream state key ver te schema n rows h = (r, h', t) →
    ∀ s1 n1, r = Ok (s1, n1) →
      growing (properties schema) (schemas t)
      ∧ length (schemas t) = schema_changes (dom (properties schema)) rows
      ∧ dom (properties s1) = dom (properties schema) ∪ field_names rows
      ∧ (∀ sch, last (schemas t) = Some sch → properties sch = properties s1)
      ∧ (schemas t = [] → properties s1 = properties schema))
    by (eapply Hgen; eauto).
  clear Hrun.
  apply (stream_rows_cases stream state key ver te
    (λ schema n rows h r h' t,
       ∀ s1 n1, r = Ok (s1, n1) →
         growing (properties schema) (schemas t)
         ∧ length (schemas t) = schema_changes (dom (properties schema)) rows
         ∧ dom (properties s1) = dom (properties schema) ∪ field_names rows
         ∧ (∀ sch, last (schemas t) = Some sch → properties sch = properties s1)
         ∧ (schemas t = [] → properties s1 = properties schema))).
  - intros schema0 n0 h0 s2 n2 [= <- <-]. simpl.
    unfold field_names. simpl. rewrite (right_id_L ∅ (∪)). done.
  - intros ???????? _ ?? [=].
  - intros schema0 n0 row rows0 h0 s2 n2 h1 t1 r h2 t2 Hrow _ IH s3 n3 Hr.
    destruct (IH _ _ Hr) as (IHg & IHlen & IHdom & IHlast & IHnil).
    assert (Ht1 : schemas t1 = (if (row_to_schema schema0 row).2
                                then [(row_to_schema schema0 row).1] else [])
                  ∧ s2 = (row_to_schema schema0 row).1).
    { apply process_row_step in Hrow
        as (_ & _ & _ & [(Heq & _ & _ & [[_ ->]|(_ & l & _ & _ & _ & ->)])
                        |(e & [=] & _)]);
        injection Heq as -> ->.
      - by rewrite row_events_schemas.
      - by rewrite schemas_app, row_events_schemas, app_nil_r. }
    destruct Ht1 as [Ht1 Hs2]. rewrite Hspec in Ht1, Hs2. simpl in Ht1, Hs2.
    rewrite schemas_app, Ht1, field_names_cons. simpl schema_changes.
    clear Hrow Ht1 IH. subst s2. simpl in IHg, IHlen, IHdom, IHnil.
    assert (Hdom2 : dom (properties schema0 ∪ (class_name <$> row))
                    = dom (properties schema0) ∪ dom row).
    { by rewrite dom_union_L, dom_fmap_L. }
    rewrite Hdom2 in IHlen, IHdom.
    case_bool_decide as Hnew.
    + (* the row brings a new name *)
      rewrite bool_decide_false by done. simpl. split.
      { split; [apply map_union_subseteq_l|].
        split; [|done]. rewrite Hdom2. set_solver. }
      split; [by rewrite IHlen|].
      split; [rewrite IHdom; set_solver|].
      split; [|done]. intros sch Hlast.
      destruct (schemas t2) as [|sch2 l2] eqn:Hl2.
      * injection Hlast as <-. symmetry. by apply IHnil.
      * apply IHlast. by rewrite last_cons_cons in Hlast.
    + (* every name of the row is known *)
      assert (Hsub : dom row ⊆ dom (properties schema0)) by exact Hnew.
      rewrite bool_decide_true by done. simpl.
      rewrite (union_known_fields _ _ Hsub) in IHg, IHnil.
      split; [done|]. split; [done|].
      split; [rewrite IHdom; set_solver|]. done.
Qed.

(** ** The whole run *)

(** [sync_collection] step by step: the version is settled and written,
    the first-run activation and the first checkpoint are written, the
    filter is built, the driver is queried, the rows are processed, and
    the closing activation is written.  Each step that raises ends the run
    with the store and the trace as they are. *)
Lemma sync_collection_eq collection stream state projection now_ms te h :
  sync_collection collection stream state projection now_ms te h =
    let sid := tap_stream_id stream in
    let ver := resolved_version (deref h state) sid now_ms in
    let dest := calculate_destination_stream_name stream in
    let act := Wrote (ActivateVersionMessage dest ver)
                     (ActivateVersionMessage dest ver) in
    let t0 := if is_none (bookmark_lookup (deref h state) sid "version")
              then [act] else [] in
    let h1 := <[state := bookmark_insert (deref h state) sid "version" ver]> h in
    match to_map (metadata stream) !! [] with
    | None => (Raise AttributeError, h1, t0)
    | Some md =>
        let key := md !! "replication-key" in
        let l := fresh (dom h1) in
        let h2 := <[l := deref h1 state]> h1 in
        let t1 := t0 ++ [Wrote (StateMessage l) (StateMessage (deref h1 state))] in
        match build_find_filter key (default ∅ (deref h1 state !! sid)) with
        | Raise e => (Raise e, h2, t1)
        | Ok f =>
            let t2 := t1 ++ [Queried f projection [(key, ASCENDING)]] in
            match find collection f projection [(key, ASCENDING)] with
            | Raise e => (Raise e, h2, t2)
            | Ok cursor =>
                match stream_rows stream state key ver te
                        {| schema_type := "object"; properties := ∅ |} 0
                        (cur_rows cursor) h2 with
                | (Raise e, h3, t3) => (Raise e, h3, t2 ++ t3)
                | (Ok _, h3, t3) =>
                    match cur_error cursor with
                    | Some e => (Raise e, h3, t2 ++ t3)
                    | None => (Ok tt, h3, t2 ++ t3 ++ [act])
                    end
                end
            end
        end
    end.
Proof.
  unfold sync_collection, resolved_version.
  unfold mbind, M_bind, mret, M_ret, get_bookmark, write_bookmark,
    write_message, deepcopy, call_find, lift, raise.
  cbv zeta.
  destruct (is_none (bookmark_lookup (deref h state) (tap_stream_id stream)
                       "version")) eqn:Hfirst; simpl;
    (destruct (to_map (metadata stream) !! []) as [md|]; simpl; [|done]);
    rewrite ?deref_insert_eq;
    (destruct (build_find_filter _ _) as [f|e]; simpl; [|done]);
    (destruct (find collection f projection _) as [cursor|e]; simpl; [|done]);
    (destruct (stream_rows _ _ _ _ _ _ _ _ _) as [[[[s1 n1]|e] h3] t3]; simpl;
       [|by rewrite ?app_nil_r]);
    (destruct (cur_error cursor) as [e|]; simpl);
    rewrite ?app_nil_r, <- ?app_assoc; reflexivity.
Qed.

(** Case analysis on a run of [sync_collection]: where it ended. *)
Ltac sync_cases Hrun :=
  rewrite sync_collection_eq in Hrun; cbv zeta in Hrun;
  destruct (to_map (metadata _) !! []) as [md|] eqn:Hmd;
  [ destruct (build_find_filter _ _) as [f|e] eqn:Hfilter;
    [ destruct (find _ f _ _) as [cursor|e] eqn:Hfind;
      [ destruct (stream_rows _ _ _ _ _ _ _ _ _) as [[[res|e] h3] t3] eqn:Hloop;
        [ destruct (cur_error cursor) as [e|] eqn:Herr | ] | ] | ] | ];
  injection Hrun as <- <- <-.

(** The filter is built from the bookmark as it was at the call: writing
    the version does not touch the other bookmark keys. *)
Lemma build_find_filter_at_call key (h : Heap) state sid ver :
  build_find_filter key
    (default ∅ (deref (<[state := bookmark_insert (deref h state) sid
                                     "version" ver]> h) state !! sid))
  = (if truthy (bookmark_lookup (deref h state) sid "replication_key_value")
     then match string_to_class
                  (bookmark_lookup (deref h state) sid "replication_key_value")
                  (bookmark_lookup (deref h state) sid "replication_key_type") with
          | Ok bound => Ok {[ key := {[ "$gte" := bound ]} ]}
          | Raise e => Raise e
          end
     else Ok ∅).
Proof.
  rewrite deref_insert_eq. unfold build_find_filter, bookmark_lookup.
  by rewrite !stream_lookup_insert_ne by done.
Qed.

Lemma admits_gte key_le key bound row :
  admits key_le {[ key := {[ "$gte" := bound ]} ]} row
  ↔ key_le bound (row_get row key).
Proof.
  unfold admits. split.
  - intros Hadm. apply (Hadm key {[ "$gte" := bound ]} bound);
      by rewrite lookup_singleton_eq.
  - intros Hle k ops b Hk Hops.
    apply lookup_singleton_Some in Hk as [<- <-].
    apply lookup_singleton_Some in Hops as [_ <-]. done.
Qed.

Lemma admits_empty key_le row : admits key_le ∅ row.
Proof. intros k ops b Hk. by rewrite lookup_empty in Hk. Qed.

(** A run of [sync_collection], step by step and with the store it works
    on: [l0] is the object of the first STATE message, [h2] the store when
    the filter is built and the loop starts. *)
Lemma sync_collection_inv collection stream state projection now_ms te h r h' t :
  sync_collection collection stream state projection now_ms te h = (r, h', t) →
  let sid := tap_stream_id stream in
  let ver := resolved_version (deref h state) sid now_ms in
  let c1 := versioned (deref h state) sid now_ms in
  let act := Wrote (ActivateVersionMessage
                      (calculate_destination_stream_name stream) ver)
                   (ActivateVersionMessage
                      (calculate_destination_stream_name stream) ver) in
  let t0 := if is_none (bookmark_lookup (deref h state) sid "version")
            then [act] else [] in
  ∃ l0 h2,
    h !! l0 = None ∧ l0 ≠ state
    ∧ h2 !! l0 = Some c1 ∧ h2 !! state = Some c1
    ∧ (∀ l, l ≠ state → l ≠ l0 → h2 !! l = h !! l)
    ∧ let s0 := Wrote (StateMessage l0) (StateMessage c1) in
      match to_map (metadata stream) !! [] with
      | None =>
          r = Raise AttributeError ∧ t = t0
          ∧ h' !! state = Some c1 ∧ (∀ l, l ≠ state → h' !! l = h !! l)
      | Some md =>
          let key := md !! "replication-key" in
          match build_find_filter key (default ∅ (c1 !! sid)) with
          | Raise e => r = Raise e ∧ t = t0 ++ [s0] ∧ h' = h2
          | Ok f =>
              let q := Queried f projection [(key, ASCENDING)] in
              match find collection f projection [(key, ASCENDING)] with
              | Raise e => r = Raise e ∧ t = t0 ++ [s0; q] ∧ h' = h2
              | Ok cursor =>
                  ∃ rl t3,
                    stream_rows stream state key ver te
                      {| schema_type := "object"; properties := ∅ |} 0
                      (cur_rows cursor) h2 = (rl, h', t3)
                    ∧ match rl, cur_error cursor with
                      | Raise e, _ => r = Raise e ∧ t = t0 ++ s0 :: q :: t3
                      | Ok _, Some e => r = Raise e ∧ t = t0 ++ s0 :: q :: t3
                      | Ok _, None =>
                          r = Ok tt ∧ t = t0 ++ s0 :: q :: t3 ++ [act]
                      end
              end
          end
      end.
Proof.
  intros Hrun sid ver c1 act t0.
  set (h1 := <[state := c1]> h).
  assert (Hh1 : deref h1 state = c1) by apply deref_insert_eq.
  set (l0 := fresh (dom h1)).
  assert (Hl0 : l0 ≠ state).
  { apply fresh_not_live. unfold h1. rewrite lookup_insert_eq. eauto. }
  assert (Hl0new : h !! l0 = None).
  { destruct (h !! l0) eqn:Hhl; [|done]. exfalso.
    apply (fresh_not_live h1 l0); [|done].
    unfold h1. rewrite lookup_insert_ne by done. rewrite Hhl. eauto. }
  exists l0, (<[l0 := c1]> h1).
  split; [done|]. split; [done|].
  split; [by rewrite lookup_insert_eq|].
  split; [unfold h1; by rewrite lookup_insert_ne, lookup_insert_eq|].
  split; [intros l Hl Hl'; unfold h1; by rewrite !lookup_insert_ne|].
  rewrite sync_collection_eq in Hrun. cbv zeta in Hrun.
  fold sid ver in Hrun.
  change (bookmark_insert (deref h state) sid "version" ver) with c1 in Hrun.
  fold h1 in Hrun. fold l0 in Hrun. rewrite Hh1 in Hrun.
  fold act t0 in Hrun.
  cbv zeta.
  destruct (to_map (metadata stream) !! []) as [md|].
  - destruct (build_find_filter _ _) as [f|e].
    + destruct (find collection f projection _) as [cursor|e].
      * destruct (stream_rows _ _ _ _ _ _ _ _ _) as [[[res|e] h3] t3] eqn:Hloop.
        -- destruct (cur_error cursor) as [e|] eqn:Herr;
             injection Hrun as <- <- <-; exists (Ok res), t3;
             by rewrite <- ?app_assoc.
        -- injection Hrun as <- <- <-. exists (Raise e), t3.
           by rewrite <- ?app_assoc.
      * injection Hrun as <- <- <-. by rewrite <- ?app_assoc.
    + by injection Hrun as <- <- <-.
  - injection Hrun as <- <- <-. split; [done|]. split; [done|].
    unfold h1. split; [by rewrite lookup_insert_eq|].
    intros l Hl. by rewrite lookup_insert_ne.
Qed.

(** ** The claims *)

(** C1: over a cursor that yields its rows in ascending order of the
    replication key, the bookmark does not regress.  Take the loop after
    the rows [pre1], where some row had a key that was stored, and later,
    after the rows [pre2] as well: the stored value and type are then the
    serializations of two keys [a] and [b] of rows of the cursor with [a]
    at or below [b]; and when the serialization of [a] and [b]
    round-trips, these are the keys the stored bookmarks stand for. *)
Theorem bookmark_never_regresses (key_le : relation pyval) stream state key ver te
    pre1 pre2 schema n h s1 n1 h1 t1 s2 n2 h2 t2 :
  Reflexive key_le →
  StronglySorted (λ r1 r2, key_le (row_get r1 key) (row_get r2 key))
    (pre1 ++ pre2) →
  stream_rows stream state key ver te schema n pre1 h = (Ok (s1, n1), h1, t1) →
  stream_rows stream state key ver te s1 n1 pre2 h1 = (Ok (s2, n2), h2, t2) →
  Exists (λ row, truthy (row_get row key) = true) pre1 →
  ∃ a b sa sb,
    key_le a b
    ∧ class_to_string a (class_name a) = Ok sa
    ∧ class_to_string b (class_name b) = Ok sb
    ∧ bookmark_lookup (deref h1 state) (tap_stream_id stream)
        "replication_key_value" = VStr sa
    ∧ bookmark_lookup (deref h1 state) (tap_stream_id stream)
        "replication_key_type" = VStr (class_name a)
    ∧ bookmark_lookup (deref h2 state) (tap_stream_id stream)
        "replication_key_value" = VStr sb
    ∧ bookmark_lookup (deref h2 state) (tap_stream_id stream)
        "replication_key_type" = VStr (class_name b)
    ∧ (string_to_class (VStr sa) (VStr (class_name a)) = Ok a →
       string_to_class (VStr sb) (VStr (class_name b)) = Ok b →
       bookmarked_key (deref h1 state) (tap_stream_id stream) = Ok a
       ∧ bookmarked_key (deref h2 state) (tap_stream_id stream) = Ok b).
Proof.
  intros Hrefl Hsorted Hrun1 Hrun2 Hex.
  pose proof (stream_rows_serialized _ _ _ _ _ _ _ _ _ _ _ _ _ Hrun1) as Hser1.
  destruct (stream_rows_content _ _ _ _ _ _ _ _ _ _ _ _ Hrun1)
    as (k1 & _ & Hc1 & Hk1).
  destruct (Hk1 _ _ eq_refl) as [-> _]. rewrite firstn_all in Hc1.
  destruct (stream_rows_content _ _ _ _ _ _ _ _ _ _ _ _ Hrun2)
    as (k2 & _ & Hc2 & Hk2).
  destruct (Hk2 _ _ eq_refl) as [-> _]. rewrite firstn_all in Hc2.
  assert (Hex1 : Exists (λ row, stores key row = true) pre1).
  { apply Exists_exists in Hex as (row & Hin & Ht). apply Exists_exists.
    exists row. split; [done|].
    rewrite Forall_forall in Hser1. by apply Hser1. }
  destruct (foldl_advance_store (tap_stream_id stream) key (deref h state) pre1 Hex1)
    as (ra & sa & Hina & _ & Hsa & Hva & Htya).
  rewrite <- Hc1 in Hva, Htya.
  assert (Hdecode : ∀ a b sa sb c1 c2,
    bookmark_lookup c1 (tap_stream_id stream) "replication_key_value" = VStr sa →
    bookmark_lookup c1 (tap_stream_id stream) "replication_key_type"
      = VStr (class_name a) →
    bookmark_lookup c2 (tap_stream_id stream) "replication_key_value" = VStr sb →
    bookmark_lookup c2 (tap_stream_id stream) "replication_key_type"
      = VStr (class_name b) →
    string_to_class (VStr sa) (VStr (class_name a)) = Ok a →
    string_to_class (VStr sb) (VStr (class_name b)) = Ok b →
    bookmarked_key c1 (tap_stream_id stream) = Ok a
    ∧ bookmarked_key c2 (tap_stream_id stream) = Ok b).
  { intros a b sa' sb' c1 c2 H1 H2 H3 H4 Ha Hb. unfold bookmarked_key.
    by rewrite H1, H2, H3, H4. }
  destruct (stores_dec key pre2) as [Hnone|Hex2].
  - rewrite (foldl_advance_skip _ _ _ _ Hnone) in Hc2.
    exists (row_get ra key), (row_get ra key), sa, sa.
    rewrite Hc2. split; [done|]. do 6 (split; [done|]).
    intros Ha _. by apply (Hdecode _ _ sa sa).
  - destruct (foldl_advance_store (tap_stream_id stream) key (deref h1 state)
                pre2 Hex2) as (rb & sb & Hinb & _ & Hsb & Hvb & Htyb).
    rewrite <- Hc2 in Hvb, Htyb.
    exists (row_get ra key), (row_get rb key), sa, sb.
    split.
    { apply (StronglySorted_app_1_elem_of _ _ _ ra rb Hsorted Hina Hinb). }
    do 6 (split; [done|]). intros Ha Hb. by apply (Hdecode _ _ sa sb).
Qed.

(** C2, as amended: when the stored [replication_key_value] of the stream
    is true in Python's sense and decodes with the stored type, the one
    query of the run has the filter [{keyName: {$gte: the decoded value}}],
    with the ascending sort on the key; a row passes that filter exactly
    when its key is at or above the bound, so a row equal to the bookmark
    is included and a row below it is not.  When the stored value is
    absent, [None], or otherwise false in Python's sense, such as the empty
    string, the filter is empty and every row passes.  When the stored
    value cannot be decoded, the run ends on that error without a query. *)
Theorem query_filter_from_bookmark collection stream state projection now_ms te
    h r h' t meta :
  sync_collection collection stream state projection now_ms te h = (r, h', t) →
  to_map (metadata stream) !! [] = Some meta →
  let sid := tap_stream_id stream in
  let key := meta !! "replication-key" in
  let bookmark := bookmark_lookup (deref h state) sid "replication_key_value" in
  let type := bookmark_lookup (deref h state) sid "replication_key_type" in
  (truthy bookmark = true →
   ∀ bound, string_to_class bookmark type = Ok bound →
     issued t = [({[ key := {[ "$gte" := bound ]} ]}, projection,
                  [(key, ASCENDING)])])
  ∧ (truthy bookmark = true →
     ∀ e, string_to_class bookmark type = Raise e →
       r = Raise e ∧ issued t = [])
  ∧ (truthy bookmark = false →
     issued t = [(∅, projection, [(key, ASCENDING)])])
  ∧ (∀ (key_le : relation pyval) bound row,
       admits key_le {[ key := {[ "$gte" := bound ]} ]} row
       ↔ key_le bound (row_get row key))
  ∧ (∀ (key_le : relation pyval) row, admits key_le ∅ row).
Proof.
  intros Hrun Hmeta sid key bookmark type.
  assert (Hissued : ∀ f,
    build_find_filter key
      (default ∅ (deref (<[state := bookmark_insert (deref h state) sid "version"
                             (resolved_version (deref h state) sid now_ms)]> h)
                    state !! sid)) = Ok f →
    issued t = [(f, projection, [(key, ASCENDING)])]).
  { intros f0 Hf0. sync_cases Hrun; try discriminate;
      injection Hmeta as ->; fold sid key in Hfilter;
      rewrite Hf0 in Hfilter; try discriminate; injection Hfilter as <-;
      try (destruct (stream_rows_quiet _ _ _ _ _ _ _ _ _ _ _ _ Hloop)
             as [_ Hnoquery]);
      rewrite !issued_app, ?Hnoquery;
      by destruct (is_none _). }
  rewrite build_find_filter_at_call in Hissued. fold bookmark type in Hissued.
  split.
  { intros Ht bound Hb. apply Hissued. by rewrite Ht, Hb. }
  split.
  { intros Ht err He. sync_cases Hrun; try discriminate; injection Hmeta as ->;
      fold sid key in Hfilter;
      rewrite build_find_filter_at_call in Hfilter;
      fold bookmark type in Hfilter; rewrite Ht, He in Hfilter;
      try discriminate.
    injection Hfilter as <-. split; [done|].
    rewrite !issued_app. by destruct (is_none _). }
  split.
  { intros Hf. apply Hissued. by rewrite Hf. }
  split; [intros; apply admits_gte|intros; apply admits_empty].
Qed.

(** C3: on a first run, when the stream has no version bookmark, the
    version is the wall-clock time in milliseconds; otherwise it is the
    stored version, unchanged.  In both cases the version is in the state
    however the run ends, it is in every checkpoint written, and if the
    run queries the driver or writes a record at all then before that, and
    so before any row is processed, it has written a checkpoint that
    carries the version. *)
Theorem version_resolved_and_stored collection stream state projection now_ms te
    h r h' t :
  sync_collection collection stream state projection now_ms te h = (r, h', t) →
  let sid := tap_stream_id stream in
  let stored := bookmark_lookup (deref h state) sid "version" in
  let ver := resolved_version (deref h state) sid now_ms in
  (is_none stored = true → ver = VInt now_ms)
  ∧ (is_none stored = false → ver = stored)
  ∧ bookmark_lookup (deref h' state) sid "version" = ver
  ∧ (∀ m c, Wrote m (StateMessage c) ∈ t → bookmark_lookup c sid "version" = ver)
  ∧ (issued t ≠ [] ∨ count is_record t ≠ 0%nat →
     ∃ t_before m c t_after,
       t = t_before ++ Wrote m (StateMessage c) :: t_after
       ∧ issued t_before = [] ∧ count is_record t_before = 0%nat
       ∧ bookmark_lookup c sid "version" = ver).
Proof.
  intros Hrun sid stored ver.
  split. { intros Hs. unfold ver, resolved_version. fold sid stored. by rewrite Hs. }
  split. { intros Hs. unfold ver, resolved_version. fold sid stored. by rewrite Hs. }
  set (c1 := bookmark_insert (deref h state) sid "version" ver).
  set (h1 := <[state := c1]> h).
  set (h2 := <[fresh (dom h1) := deref h1 state]> h1).
  set (act := Wrote (ActivateVersionMessage
                       (calculate_destination_stream_name stream) ver)
                    (ActivateVersionMessage
                       (calculate_destination_stream_name stream) ver)).
  set (t0 := if is_none stored then [act] else []).
  assert (Hc1 : bookmark_lookup c1 sid "version" = ver)
    by apply bookmark_lookup_insert_eq.
  assert (Hh1 : deref h1 state = c1) by apply deref_insert_eq.
  assert (Hh2 : deref h2 state = c1) by (unfold h2; by rewrite deref_deepcopy).
  assert (Ht0 : ∀ m c, Wrote m (StateMessage c) ∉ t0).
  { intros m c Hin. unfold t0 in Hin. destruct (is_none stored).
    - apply list_elem_of_singleton in Hin. discriminate.
    - by apply elem_of_nil in Hin. }
  assert (Ht0q : issued t0 = [] ∧ count is_record t0 = 0%nat).
  { unfold t0. by destruct (is_none stored). }
  assert (Hfirst : ∀ t_after,
    ∃ t_before m c t_after',
      t0 ++ Wrote (StateMessage (fresh (dom h1))) (StateMessage (deref h1 state))
              :: t_after
      = t_before ++ Wrote m (StateMessage c) :: t_after'
      ∧ issued t_before = [] ∧ count is_record t_before = 0%nat
      ∧ bookmark_lookup c sid "version" = ver).
  { intros t_after. exists t0, (StateMessage (fresh (dom h1))), c1, t_after.
    rewrite Hh1. by destruct Ht0q. }
  assert (Hloop_inv : ∀ key schema n rows rl h3 t3,
    stream_rows stream state key ver te schema n rows h2 = (rl, h3, t3) →
    bookmark_lookup (deref h3 state) sid "version" = ver
    ∧ ∀ m c, Wrote m (StateMessage c) ∈ t3 → bookmark_lookup c sid "version" = ver).
  { intros key schema n rows rl h3 t3 Hl.
    apply (stream_rows_invariant stream state key ver te
             (λ c, bookmark_lookup c sid "version" = ver)) in Hl; [done| |].
    - intros c row Hc. rewrite advance_other; [done|]. right. done.
    - by rewrite Hh2. }
  sync_cases Hrun; fold sid stored ver c1 h1 h2 act t0;
    try (destruct (Hloop_inv _ _ _ _ _ _ _ Hloop) as [Hv Hst]);
    (split; [by rewrite ?Hh1, ?Hh2|]);
    (split;
     [ intros m c Hin; repeat (apply elem_of_app in Hin as [Hin|Hin]);
       try (apply list_elem_of_singleton in Hin; injection Hin as _ ->);
       try (apply list_elem_of_singleton in Hin; discriminate);
       try (by apply Ht0 in Hin); try (by eapply Hst); by rewrite ?Hh1
     | ]).
  - (* the cursor ended on an error *)
    intros _. rewrite <- !app_assoc. apply Hfirst.
  - (* the run ended normally *)
    intros _. rewrite <- !app_assoc. apply Hfirst.
  - (* a row raised *)
    intros _. rewrite <- !app_assoc. apply Hfirst.
  - (* the driver raised *)
    intros _. rewrite <- !app_assoc. apply Hfirst.
  - (* the bookmark could not be decoded *)
    rewrite issued_app, count_app. destruct Ht0q as [-> ->]. simpl.
    intros [?|?]; done.
  - (* no top-level metadata *)
    destruct Ht0q as [-> ->]. intros [?|?]; done.
Qed.

(** C4: the run writes an ACTIVATE_VERSION message for the resolved
    version first of all, before it queries the driver, exactly when it is
    a first run; between that and the end it writes no activation; and it
    ends normally exactly with a closing ACTIVATE_VERSION for the same
    version, after the query and one record for each row of the cursor.
    The run does end normally, first run or not, once the driver has
    served a cursor that is exhausted without error, provided no row
    raises: the period is not zero and the keys can be serialized. *)
Theorem activation_messages collection stream state projection now_ms te
    h r h' t :
  sync_collection collection stream state projection now_ms te h = (r, h', t) →
  let sid := tap_stream_id stream in
  let ver := resolved_version (deref h state) sid now_ms in
  let act := Wrote (ActivateVersionMessage
                      (calculate_destination_stream_name stream) ver)
                   (ActivateVersionMessage
                      (calculate_destination_stream_name stream) ver) in
  (∃ t_mid,
     t = (if is_none (bookmark_lookup (deref h state) sid "version")
          then [act] else [])
         ++ t_mid ++ (match r with Ok _ => [act] | Raise _ => [] end)
     ∧ count is_activate t_mid = 0%nat
     ∧ match r with
       | Ok _ =>
           ∃ f sort cursor,
             issued t_mid = [(f, projection, sort)]
             ∧ find collection f projection sort = Ok cursor
             ∧ cur_error cursor = None
             ∧ count is_record t_mid = length (cur_rows cursor)
       | Raise _ => True
       end)
  ∧ (∀ f key cursor,
       (f, projection, [(key, ASCENDING)]) ∈ issued t →
       find collection f projection [(key, ASCENDING)] = Ok cursor →
       cur_error cursor = None →
       UPDATE_BOOKMARK_PERIOD ≠ 0%Z →
       Forall (λ row, truthy (row_get row key) = true → stores key row = true)
         (cur_rows cursor) →
       r = Ok tt).
Proof.
  intros Hrun sid ver act.
  set (t0 := if is_none (bookmark_lookup (deref h state) sid "version")
             then [act] else []).
  assert (Ht0 : issued t0 = []) by (unfold t0; by destruct (is_none _)).
  sync_cases Hrun; fold sid ver act t0;
    try (destruct (stream_rows_quiet _ _ _ _ _ _ _ _ _ _ _ _ Hloop)
           as [Hquiet Hnoquery]).
  - (* the cursor ended on an error *)
    split.
    + eexists ([Wrote (StateMessage _) (StateMessage _)]
              ++ [Queried f projection [(md !! "replication-key", ASCENDING)]]
              ++ t3).
      rewrite app_nil_r, <- !app_assoc. split; [reflexivity|].
      split; [|done]. by rewrite !count_app, Hquiet.
    + intros f' key cursor' Hin Hfind' Herr' _ _.
      rewrite !issued_app, Ht0, Hnoquery in Hin. simpl in Hin.
      apply list_elem_of_singleton in Hin. injection Hin as -> ->.
      rewrite Hfind in Hfind'. injection Hfind' as <-. congruence.
  - (* the run ended normally *)
    destruct res as [s1 n1].
    split; [|done].
    eexists ([Wrote (StateMessage _) (StateMessage _)]
            ++ [Queried f projection [(md !! "replication-key", ASCENDING)]]
            ++ t3).
    rewrite <- !app_assoc. split; [reflexivity|].
    split; [by rewrite !count_app, Hquiet|].
    exists f, [(md !! "replication-key", ASCENDING)], cursor.
    rewrite !issued_app, Hnoquery, !count_app.
    rewrite (stream_rows_records _ _ _ _ _ _ _ _ _ _ _ _ _ Hloop). done.
  - (* a row raised *)
    split.
    + eexists ([Wrote (StateMessage _) (StateMessage _)]
              ++ [Queried f projection [(md !! "replication-key", ASCENDING)]]
              ++ t3).
      rewrite app_nil_r, <- !app_assoc. split; [reflexivity|].
      split; [|done]. by rewrite !count_app, Hquiet.
    + intros f' key cursor' Hin Hfind' Herr' HN Hall.
      rewrite !issued_app, Ht0, Hnoquery in Hin. simpl in Hin.
      apply list_elem_of_singleton in Hin. injection Hin as -> ->.
      rewrite Hfind in Hfind'. injection Hfind' as <-.
      destruct (stream_rows_completes stream state (md !! "replication-key")
                  ver te (cur_rows cursor)
                  {| schema_type := "object"; properties := ∅ |} 0
                  (<[fresh (dom (<[state := bookmark_insert (deref h state) sid
                                             "version" ver]> h))
                     := deref (<[state := bookmark_insert (deref h state) sid
                                            "version" ver]> h) state]>
                     (<[state := bookmark_insert (deref h state) sid
                                   "version" ver]> h)) HN Hall)
        as (s1 & n1 & h4 & t4 & Hok).
      fold sid ver in Hloop. rewrite Hok in Hloop. discriminate.
  - (* the driver raised *)
    split.
    + eexists ([Wrote (StateMessage _) (StateMessage _)]
              ++ [Queried f projection [(md !! "replication-key", ASCENDING)]]).
      rewrite app_nil_r, <- !app_assoc. split; [reflexivity|]. done.
    + intros f' key cursor' Hin Hfind' _ _ _.
      rewrite !issued_app, Ht0 in Hin. simpl in Hin.
      apply list_elem_of_singleton in Hin. injection Hin as -> ->.
      rewrite Hfind in Hfind'. discriminate.
  - (* the bookmark could not be decoded *)
    split.
    + eexists [Wrote (StateMessage _) (StateMessage _)].
      rewrite app_nil_r. split; [reflexivity|]. done.
    + intros f' key cursor' Hin. rewrite !issued_app, Ht0 in Hin.
      by apply elem_of_nil in Hin.
  - (* no top-level metadata *)
    split.
    + exists []. by rewrite !app_nil_r.
    + intros f' key cursor' Hin. rewrite Ht0 in Hin.
      by apply elem_of_nil in Hin.
Qed.

(** C5, as amended: [update_bookmark] overwrites the stored
    [replication_key_value] (with the serialized string) and
    [replication_key_type] (with the type name) when the row's value for
    the replication key is true in Python's sense and is serialized; it
    leaves every other bookmark and every other object alone.  When the
    value is false in Python's sense, which includes an absent or null
    field, it returns with the store unchanged.  When serialization raises,
    the exception propagates and the store is unchanged. *)
Theorem update_bookmark_overwrites_when_truthy row state sid key h :
  (truthy (row_get row key) = true →
   ∀ s, class_to_string (row_get row key) (class_name (row_get row key)) = Ok s →
     ∃ h', update_bookmark row state sid key h = (Ok tt, h', [])
       ∧ bookmark_lookup (deref h' state) sid "replication_key_value" = VStr s
       ∧ bookmark_lookup (deref h' state) sid "replication_key_type"
         = VStr (class_name (row_get row key))
       ∧ (∀ sid' k,
            sid' ≠ sid ∨ k ≠ "replication_key_value" ∧ k ≠ "replication_key_type" →
            bookmark_lookup (deref h' state) sid' k
            = bookmark_lookup (deref h state) sid' k)
       ∧ (∀ l, l ≠ state → h' !! l = h !! l))
  ∧ (truthy (row_get row key) = false →
     update_bookmark row state sid key h = (Ok tt, h, []))
  ∧ (truthy (row_get row key) = true →
     ∀ e, class_to_string (row_get row key) (class_name (row_get row key)) = Raise e →
       update_bookmark row state sid key h = (Raise e, h, [])).
Proof.
  split; [|split].
  - intros Ht s Hs. by apply update_bookmark_stored.
  - apply update_bookmark_falsy.
  - intros Ht e He. by apply update_bookmark_raises.
Qed.

(** C6: in a run that ends normally, with a positive checkpoint period
    [N], over a cursor of [R] rows: before the query the run writes one
    STATE message and no record; between the query and the closing
    activation it writes [R] records and [floor (R / N)] STATE messages;
    after that it writes the closing activation only.  So it writes
    [1 + floor (R / N)] STATE messages in all.  Each STATE message of the
    loop comes after a positive multiple of [N] records. *)
Theorem checkpoint_count collection stream state projection now_ms te h h' t :
  (0 < UPDATE_BOOKMARK_PERIOD)%Z →
  sync_collection collection stream state projection now_ms te h = (Ok tt, h', t) →
  ∃ t_start f sort cursor t_loop m_act line_act,
    t = t_start ++ [Queried f projection sort] ++ t_loop ++ [Wrote m_act line_act]
    ∧ find collection f projection sort = Ok cursor
    ∧ is_activate line_act = true
    ∧ count is_state t_start = 1%nat
    ∧ count is_record t_start = 0%nat
    ∧ count is_record t_loop = length (cur_rows cursor)
    ∧ Z.of_nat (count is_state t_loop)
      = (Z.of_nat (length (cur_rows cursor)) / UPDATE_BOOKMARK_PERIOD)%Z
    ∧ Z.of_nat (count is_state t)
      = (1 + Z.of_nat (length (cur_rows cursor)) / UPDATE_BOOKMARK_PERIOD)%Z
    ∧ (∀ before m c after,
         t_loop = before ++ Wrote m (StateMessage c) :: after →
         (0 < count is_record before)%nat
         ∧ (Z.of_nat (count is_record before) mod UPDATE_BOOKMARK_PERIOD = 0)%Z).
Proof.
  intros HN Hrun. remember (Ok tt) as r eqn:Hr.
  sync_cases Hrun; try discriminate. clear Hr.
  destruct res as [s1 n1].
  destruct (stream_rows_counts _ _ _ _ _ _ _ _ _ _ _ _ _ HN Hloop) as [Hrec Hst].
  rewrite Z.add_0_l, Z.div_0_l, Z.sub_0_r in Hst by lia.
  set (sid := tap_stream_id stream) in *.
  set (ver := resolved_version (deref h state) sid now_ms) in *.
  set (dest := calculate_destination_stream_name stream).
  set (t0 := if is_none (bookmark_lookup (deref h state) sid "version")
             then [Wrote (ActivateVersionMessage dest ver)
                         (ActivateVersionMessage dest ver)]
             else []).
  assert (Ht0 : count is_state t0 = 0%nat ∧ count is_record t0 = 0%nat)
    by (unfold t0; by destruct (is_none _)).
  destruct Ht0 as [Ht0s Ht0r].
  eexists (t0 ++ [_]), f, _, cursor, t3,
    (ActivateVersionMessage dest ver), (ActivateVersionMessage dest ver).
  split; [by rewrite <- !app_assoc|].
  split; [done|]. split; [done|].
  split; [by rewrite count_app, Ht0s|].
  split; [by rewrite count_app, Ht0r|].
  split; [done|]. split; [done|]. split.
  { rewrite !count_app, Ht0s, !Nat2Z.inj_add, Hst. unfold count. simpl. lia. }
  intros before m c after Heq.
  destruct (stream_rows_checkpoints _ _ _ _ _ _ _ _ _ _ _ _ Hloop _ _ _ _ Heq)
    as (_ & Hpos & Hmod).
  by rewrite Z.add_0_l in Hmod.
Qed.

(** C7, as amended, with [row_to_schema] as the spec has it: in a run
    that ends normally there is one SCHEMA message for each row of the
    cursor that carries a field name no earlier row has, whether the row
    brings one such name or several; so there is at most one for each
    distinct field name and at most one for each row, and not one for
    each name.  Each schema written brings a name that the one before it
    does not have and keeps the fields that one had, and the last one has
    every field name of the cursor.  The count depends on the names in
    the rows only, so a field that comes again with a value of another
    type brings no SCHEMA message. *)
Theorem schema_messages collection stream state projection now_ms te h h' t :
  row_to_schema = spec_row_to_schema →
  sync_collection collection stream state projection now_ms te h = (Ok tt, h', t) →
  ∃ f sort cursor,
    issued t = [(f, projection, sort)]
    ∧ find collection f projection sort = Ok cursor
    ∧ count is_schema t = schema_changes ∅ (cur_rows cursor)
    ∧ growing ∅ (schemas t)
    ∧ (∀ sch, last (schemas t) = Some sch →
              dom (properties sch) = field_names (cur_rows cursor))
    ∧ (schemas t = [] → field_names (cur_rows cursor) = ∅)
    ∧ (schema_changes ∅ (cur_rows cursor) ≤ size (field_names (cur_rows cursor)))%nat
    ∧ (schema_changes ∅ (cur_rows cursor) ≤ length (cur_rows cursor))%nat
    ∧ (∀ rows' : list Row,
         dom <$> rows' = dom <$> cur_rows cursor →
         schema_changes ∅ rows' = schema_changes ∅ (cur_rows cursor)).
Proof.
  intros Hspec Hrun. remember (Ok tt) as r eqn:Hr.
  sync_cases Hrun; try discriminate. clear Hr.
  destruct res as [s1 n1].
  destruct (stream_rows_schemas _ _ _ _ _ _ _ _ _ _ _ _ _ Hspec Hloop)
    as (Hg & Hlen & Hdom & Hlast & Hnil).
  simpl in Hg, Hlen, Hdom, Hnil. rewrite dom_empty_L in Hlen, Hdom.
  rewrite (left_id_L ∅ (∪)) in Hdom.
  destruct (stream_rows_quiet _ _ _ _ _ _ _ _ _ _ _ _ Hloop) as [_ Hnoquery].
  assert (Hschemas : ∀ t0 : list event,
    schemas t0 = [] →
    schemas (((t0 ++ [Wrote (StateMessage (fresh (dom
                 (<[state := bookmark_insert (deref h state) (tap_stream_id stream)
                               "version"
                               (resolved_version (deref h state)
                                  (tap_stream_id stream) now_ms)]> h))))
               (StateMessage (deref
                 (<[state := bookmark_insert (deref h state) (tap_stream_id stream)
                               "version"
                               (resolved_version (deref h state)
                                  (tap_stream_id stream) now_ms)]> h) state))])
              ++ [Queried f projection [(md !! "replication-key", ASCENDING)]])
             ++ t3 ++ [Wrote (ActivateVersionMessage
                                (calculate_destination_stream_name stream)
                                (resolved_version (deref h state)
                                   (tap_stream_id stream) now_ms))
                             (ActivateVersionMessage
                                (calculate_destination_stream_name stream)
                                (resolved_version (deref h state)
                                   (tap_stream_id stream) now_ms))])
    = schemas t3).
  { intros t0 Ht0. rewrite !schemas_app, Ht0. simpl.
    by rewrite app_nil_r. }
  exists f, [(md !! "replication-key", ASCENDING)], cursor.
  split.
  { rewrite !issued_app, Hnoquery. by destruct (is_none _). }
  split; [done|].
  rewrite count_schema_length, Hschemas by (by destruct (is_none _)).
  split; [done|]. split; [done|].
  split. { intros sch Hl. by rewrite (Hlast _ Hl). }
  split. { intros Hl. rewrite <- Hdom, (Hnil Hl). apply dom_empty_L. }
  split.
  { etrans; [apply schema_changes_le_size|]. apply subseteq_size. set_solver. }
  split; [apply schema_changes_le_length|].
  intros rows'. apply schema_changes_names.
Qed.


(** C9: every STATE message of a run, the first one and the periodic
    checkpoints alike, holds an object that did not exist before the run
    and is not the state object, and what was written for it is the
    content of the state at the time of writing: the state with the
    version, advanced by exactly the rows whose records were written
    before the message.  At the end of the run, after all later advances
    of the bookmark in place, that object still has the content that was
    written. *)
Theorem state_messages_are_snapshots collection stream state projection now_ms te
    h r h' t :
  sync_collection collection stream state projection now_ms te h = (r, h', t) →
  is_Some (h !! state) →
  let sid := tap_stream_id stream in
  let c1 := bookmark_insert (deref h state) sid "version"
              (resolved_version (deref h state) sid now_ms) in
  (∀ m line, Wrote m line ∈ t → is_state line = true →
     ∃ l c, m = StateMessage l ∧ line = StateMessage c
            ∧ l ≠ state ∧ h !! l = None ∧ h' !! l = Some c)
  ∧ (∀ t1 m c t2,
       t = t1 ++ Wrote m (StateMessage c) :: t2 →
       (count is_record t1 = 0%nat → c = c1)
       ∧ (∀ f key cursor,
            (f, projection, [(key, ASCENDING)]) ∈ issued t →
            find collection f projection [(key, ASCENDING)] = Ok cursor →
            c = foldl (advance sid key) c1
                  (take (count is_record t1) (cur_rows cursor)))).
Proof.
  intros Hrun Hlive sid c1.
  set (ver := resolved_version (deref h state) sid now_ms) in *.
  set (h1 := <[state := c1]> h).
  set (l0 := fresh (dom h1)).
  set (h2 := <[l0 := deref h1 state]> h1).
  set (act := Wrote (ActivateVersionMessage
                       (calculate_destination_stream_name stream) ver)
                    (ActivateVersionMessage
                       (calculate_destination_stream_name stream) ver)).
  set (t0 := if is_none (bookmark_lookup (deref h state) sid "version")
             then [act] else []).
  assert (Hh1 : deref h1 state = c1) by apply deref_insert_eq.
  assert (Hl0 : l0 ≠ state).
  { apply fresh_not_live. unfold h1. rewrite lookup_insert_eq. eauto. }
  assert (Hl0new : h !! l0 = None).
  { destruct (h !! l0) eqn:Hhl; [|done]. exfalso.
    apply (fresh_not_live h1 l0); [|done].
    unfold h1. rewrite lookup_insert_ne by done. rewrite Hhl. eauto. }
  assert (Hh2 : deref h2 state = c1).
  { unfold h2. by rewrite deref_insert_ne. }
  assert (Hh2l0 : h2 !! l0 = Some c1).
  { unfold h2. by rewrite lookup_insert_eq, Hh1. }
  assert (Hh2live : is_Some (h2 !! state)).
  { unfold h2, h1. rewrite lookup_insert_ne, lookup_insert_eq by done. eauto. }
  assert (Hh2new : ∀ l, h2 !! l = None → h !! l = None).
  { intros l Hl. unfold h2 in Hl. apply lookup_insert_None in Hl as [Hl _].
    unfold h1 in Hl. by apply lookup_insert_None in Hl as [Hl _]. }
  assert (Ht0 : ∀ m line, Wrote m line ∈ t0 → is_state line = false).
  { intros m line Hin. unfold t0 in Hin. destruct (is_none _).
    - apply list_elem_of_singleton in Hin. by injection Hin as -> ->.
    - by apply elem_of_nil in Hin. }
  assert (Ht0free : ∀ m c, Wrote m (StateMessage c) ∉ t0).
  { intros m c Hin. by apply Ht0 in Hin. }
  assert (Ht0rec : count is_record t0 = 0%nat ∧ issued t0 = []).
  { unfold t0. by destruct (is_none _). }
  destruct Ht0rec as [Ht0rec Ht0q].
  assert (Hloop_frame : ∀ key schema n rows rl h3 t3,
    stream_rows stream state key ver te schema n rows h2 = (rl, h3, t3) →
    h3 !! l0 = Some c1
    ∧ ∀ m line, Wrote m line ∈ t3 → is_state line = true →
        ∃ l c, m = StateMessage l ∧ line = StateMessage c
               ∧ l ≠ state ∧ h !! l = None ∧ h3 !! l = Some c).
  { intros key schema n rows rl h3 t3 Hl.
    destruct (stream_rows_frame _ _ _ _ _ _ _ _ _ _ _ _ Hl Hh2live)
      as (_ & Hframe & Hmsgs).
    split; [rewrite Hframe; [done|by rewrite Hh2l0|done]|].
    intros m line Hin Hst.
    destruct (Hmsgs _ _ Hin Hst) as (l & c & -> & -> & Hnew & Hne & Hl3).
    exists l, c. auto 10. }
  assert (Hloop_pos : ∀ key schema rows rl h3 t3 l m c t2,
    stream_rows stream state key ver te schema 0 rows h2 = (rl, h3, t3) →
    t3 = l ++ Wrote m (StateMessage c) :: t2 →
    c = foldl (advance sid key) c1 (take (count is_record l) rows)
    ∧ (0 < count is_record l)%nat).
  { intros key schema rows rl h3 t3 l m c t2 Hl Heq.
    destruct (stream_rows_checkpoints _ _ _ _ _ _ _ _ _ _ _ _ Hl _ _ _ _ Heq)
      as (Hc & Hpos & _). by rewrite Hh2 in Hc. }
  assert (Hpre : ∀ l, count is_record
                        (t0 ++ Wrote (StateMessage l0) (StateMessage (deref h1 state))
                            :: l) = count is_record l).
  { intros l. by rewrite count_app, Ht0rec. }
  assert (Hfirst : ∀ m c,
    Wrote (StateMessage l0) (StateMessage (deref h1 state))
      = Wrote m (StateMessage c) → c = c1).
  { intros m c [= _ <-]. done. }
  split.
  - (* each STATE message holds its own object *)
    intros m line Hin Hst.
    sync_cases Hrun;
      repeat match goal with
             | H : _ |- _ => progress fold sid ver c1 h1 l0 h2 act t0 in H
             end;
      fold sid ver c1 h1 l0 h2 act t0;
      try (destruct (Hloop_frame _ _ _ _ _ _ _ Hloop) as [Hl3 Hmsgs]);
      repeat (apply elem_of_app in Hin as [Hin|Hin]);
      try (by rewrite (Ht0 _ _ Hin) in Hst);
      try (by eapply Hmsgs);
      try (apply list_elem_of_singleton in Hin; rewrite ?Hh1 in Hin;
           injection Hin as -> ->; try discriminate; exists l0, c1;
           by eauto 10);
      try (apply list_elem_of_singleton in Hin; discriminate).
  - (* and what was written is the state at the time of writing *)
    intros t1 m c t2 Heq.
    sync_cases Hrun;
      repeat match goal with
             | H : _ |- _ => progress fold sid ver c1 h1 l0 h2 act t0 in H
             end;
      fold sid ver c1 h1 l0 h2 act t0;
      rewrite <- ?app_assoc in Heq; simpl in Heq;
      try (rewrite app_nil_r in Heq);
      try (exfalso; apply (Ht0free m c); rewrite Heq;
           apply elem_of_app; right; by left);
      (apply split_head in Heq as [(-> & Hev & ->)|(l & -> & Heq)];
       [ rewrite Ht0rec; apply Hfirst in Hev as ->; by split
       | | done ]);
      try (by destruct l).
    + (* the cursor ended on an error *)
      apply (split_head []) in Heq as [(_ & [=] & _)|(l' & -> & Heq)];
        [|apply not_elem_of_nil].
      destruct (Hloop_pos _ _ _ _ _ _ _ _ _ _ Hloop Heq) as [Hc Hpos].
      rewrite Hpre. simpl.
      change (count is_record (Queried _ _ _ :: l')) with (count is_record l').
      split; [lia|]. intros f' key cursor' Hin Hfind'.
      rewrite !issued_app, Ht0q in Hin. simpl in Hin.
      rewrite (proj2 (stream_rows_quiet _ _ _ _ _ _ _ _ _ _ _ _ Hloop)) in Hin.
      apply list_elem_of_singleton in Hin. injection Hin as -> ->.
      rewrite Hfind in Hfind'. by injection Hfind' as <-.
    + (* the run ended normally *)
      apply (split_head []) in Heq as [(_ & [=] & _)|(l' & -> & Heq)];
        [|apply not_elem_of_nil].
      apply split_last in Heq as (t2' & -> & Heq); [|done].
      destruct (Hloop_pos _ _ _ _ _ _ _ _ _ _ Hloop Heq) as [Hc Hpos].
      rewrite Hpre. simpl.
      change (count is_record (Queried _ _ _ :: l')) with (count is_record l').
      split; [lia|]. intros f' key cursor' Hin Hfind'.
      rewrite !issued_app, Ht0q in Hin. simpl in Hin.
      rewrite (proj2 (stream_rows_quiet _ _ _ _ _ _ _ _ _ _ _ _ Hloop)) in Hin.
      apply list_elem_of_singleton in Hin. injection Hin as -> ->.
      rewrite Hfind in Hfind'. by injection Hfind' as <-.
    + (* a row raised *)
      apply (split_head []) in Heq as [(_ & [=] & _)|(l' & -> & Heq)];
        [|apply not_elem_of_nil].
      destruct (Hloop_pos _ _ _ _ _ _ _ _ _ _ Hloop Heq) as [Hc Hpos].
      rewrite Hpre. simpl.
      change (count is_record (Queried _ _ _ :: l')) with (count is_record l').
      split; [lia|]. intros f' key cursor' Hin Hfind'.
      rewrite !issued_app, Ht0q in Hin. simpl in Hin.
      rewrite (proj2 (stream_rows_quiet _ _ _ _ _ _ _ _ _ _ _ _ Hloop)) in Hin.
      apply list_elem_of_singleton in Hin. injection Hin as -> ->.
      rewrite Hfind in Hfind'. by injection Hfind' as <-.
    + (* the driver raised *)
      apply (split_head []) in Heq as [(_ & [=] & _)|(l' & -> & Heq)];
        [|apply not_elem_of_nil].
      by destruct l'.
Qed.

(** C10: a row whose replication key value is false in Python's sense,
    be it absent, [None], [0], [0.0], the empty string, [False] or an
    empty container, leaves the store exactly as it is.  So whenever
    [update_bookmark] changes the store, what it stored is the
    serialization, with its type name, of a value that is true in Python's
    sense; and when serialization round-trips, the stored value and type
    are never those of a value that is false. *)
Theorem update_bookmark_skips_falsy :
  (∀ v, v ∈ [VNone; VBool false; VInt 0; VInt64 0; VFloat 0; VFloat (2 ^ 63);
             VStr EmptyString; VBytes []; VList []; VDict []] →
        truthy v = false)
  ∧ (∀ (row : Row) k, row !! k = None → truthy (row_get row (Some k)) = false)
  ∧ (∀ row state sid key h,
       truthy (row_get row key) = false →
       update_bookmark row state sid key h = (Ok tt, h, []))
  ∧ (∀ row state sid key h r h' t,
       update_bookmark row state sid key h = (r, h', t) → h' ≠ h →
       ∃ s, truthy (row_get row key) = true
         ∧ class_to_string (row_get row key) (class_name (row_get row key)) = Ok s
         ∧ bookmark_lookup (deref h' state) sid "replication_key_value" = VStr s
         ∧ bookmark_lookup (deref h' state) sid "replication_key_type"
           = VStr (class_name (row_get row key)))
  ∧ ((∀ v s, class_to_string v (class_name v) = Ok s →
             string_to_class (VStr s) (VStr (class_name v)) = Ok v) →
     ∀ row state sid key h r h' t,
       update_bookmark row state sid key h = (r, h', t) → h' ≠ h →
       ∀ u s', truthy u = false →
         class_to_string u (class_name u) = Ok s' →
         ¬ (bookmark_lookup (deref h' state) sid "replication_key_value" = VStr s'
            ∧ bookmark_lookup (deref h' state) sid "replication_key_type"
              = VStr (class_name u))).
Proof.
  assert (Hchanged : ∀ row state sid key h r h' t,
    update_bookmark row state sid key h = (r, h', t) → h' ≠ h →
    ∃ s, truthy (row_get row key) = true
      ∧ class_to_string (row_get row key) (class_name (row_get row key)) = Ok s
      ∧ bookmark_lookup (deref h' state) sid "replication_key_value" = VStr s
      ∧ bookmark_lookup (deref h' state) sid "replication_key_type"
        = VStr (class_name (row_get row key))).
  { intros row state sid key h r h' t Hrun Hne.
    destruct (truthy (row_get row key)) eqn:Ht.
    - destruct (class_to_string (row_get row key) (class_name (row_get row key)))
        as [s|e] eqn:Hs.
      + destruct (update_bookmark_stored row state sid key h s Ht Hs)
          as (h1 & Hrun1 & Hv & Hty & _).
        rewrite Hrun1 in Hrun. injection Hrun as <- <- <-. eauto.
      + rewrite (update_bookmark_raises _ _ _ _ _ e Ht Hs) in Hrun.
        injection Hrun as <- <- <-. done.
    - rewrite (update_bookmark_falsy _ _ _ _ _ Ht) in Hrun.
      injection Hrun as <- <- <-. done. }
  split.
  { intros v Hv.
    repeat (apply elem_of_cons in Hv as [->|Hv]; [reflexivity|]).
    by apply elem_of_nil in Hv. }
  split.
  { intros row k Hk. simpl. by rewrite Hk. }
  split; [apply update_bookmark_falsy|]. split; [exact Hchanged|].
  intros Hround row state sid key h r h' t Hrun Hne u s' Hu Hs' [Hv Hty].
  destruct (Hchanged _ _ _ _ _ _ _ _ Hrun Hne) as (s & Ht & Hs & Hv' & Hty').
  rewrite Hv' in Hv. rewrite Hty' in Hty.
  injection Hv as ->. injection Hty as Hclass.
  pose proof (Hround _ _ Hs) as Hback. rewrite Hclass in Hback.
  rewrite (Hround _ _ Hs') in Hback. injection Hback as ->. congruence.
Qed.
(** ** Further properties of update_bookmark and of the loop *)

Lemma bookmark_insert_again (c : State) sid k v :
  default ∅ (c !! sid) !! k = Some v → is_Some (c !! sid) →
  bookmark_insert c sid k v = c.
Proof.
  intros Hk [m Hm]. unfold bookmark_insert. rewrite Hm in *. simpl in *.
  rewrite (insert_id m) by done. by apply insert_id.
Qed.

(** X1: [update_bookmark] is idempotent: a second call with the same row
    on the store the first call left ends the same way and leaves that
    store as it is. *)
Theorem update_bookmark_idempotent row state sid key h r h1 t1 :
  update_bookmark row state sid key h = (r, h1, t1) →
  update_bookmark row state sid key h1 = (r, h1, []).
Proof.
  intros Hrun.
  destruct (truthy (row_get row key)) eqn:Ht.
  - destruct (class_to_string (row_get row key) (class_name (row_get row key)))
      as [s|e] eqn:Hs.
    + rewrite (update_bookmark_stores _ _ _ _ _ s Ht Hs) in Hrun.
      injection Hrun as <- <- <-.
      rewrite (update_bookmark_stores _ _ _ _ _ s Ht Hs).
      rewrite deref_insert_eq, insert_insert_eq. do 3 f_equal.
      set (c1 := bookmark_insert (deref h state) sid "replication_key_value"
                   (VStr s)).
      set (c2 := bookmark_insert c1 sid "replication_key_type"
                   (VStr (class_name (row_get row key)))).
      assert (Hlive : is_Some (c2 !! sid)).
      { unfold c2, bookmark_insert. rewrite lookup_insert_eq. eauto. }
      rewrite (bookmark_insert_again c2 sid "replication_key_value" (VStr s));
        [|unfold c2, c1, bookmark_insert; rewrite !lookup_insert_eq; simpl;
          by rewrite lookup_insert_ne, lookup_insert_eq|done].
      apply bookmark_insert_again; [|done].
      unfold c2, bookmark_insert. rewrite lookup_insert_eq. simpl.
      by rewrite lookup_insert_eq.
    + rewrite (update_bookmark_raises _ _ _ _ _ e Ht Hs) in Hrun.
      injection Hrun as <- <- <-. by apply update_bookmark_raises.
  - rewrite (update_bookmark_falsy _ _ _ _ _ Ht) in Hrun.
    injection Hrun as <- <- <-. by apply update_bookmark_falsy.
Qed.

(** X2: the loop compares no keys.  After a run of the loop that ends
    normally, the bookmark is the serialization of the key of the last row
    whose key is true in Python's sense, whatever the keys of the rows
    before it: over a cursor that is not ascending the bookmark goes
    back. *)
Theorem bookmark_is_last_stored_key stream state key ver te pre row post
    schema n h s1 n1 h' t :
  stream_rows stream state key ver te schema n (pre ++ row :: post) h
    = (Ok (s1, n1), h', t) →
  truthy (row_get row key) = true →
  Forall (λ later, truthy (row_get later key) = false) post →
  ∃ s, class_to_string (row_get row key) (class_name (row_get row key)) = Ok s
       ∧ bookmark_lookup (deref h' state) (tap_stream_id stream)
           "replication_key_value" = VStr s
       ∧ bookmark_lookup (deref h' state) (tap_stream_id stream)
           "replication_key_type" = VStr (class_name (row_get row key)).
Proof.
  intros Hrun Ht Hpost.
  pose proof (stream_rows_serialized _ _ _ _ _ _ _ _ _ _ _ _ _ Hrun) as Hser.
  destruct (stream_rows_content _ _ _ _ _ _ _ _ _ _ _ _ Hrun)
    as (k & _ & Hc & Hk).
  destruct (Hk _ _ eq_refl) as [-> _]. rewrite firstn_all in Hc.
  rewrite foldl_app in Hc. simpl in Hc.
  rewrite foldl_advance_skip in Hc.
  - apply Forall_app in Hser as [_ Hser].
    apply Forall_cons in Hser as [Hrow _].
    destruct (advance_store (tap_stream_id stream) key
                (foldl (advance (tap_stream_id stream) key) (deref h state) pre)
                row (Hrow Ht)) as (s & Hs & _ & Hv & Hty).
    exists s. by rewrite Hc.
  - eapply Forall_impl; [exact Hpost|]. intros later Hf.
    unfold stores. by rewrite Hf.
Qed.

(** X3: a key that cannot be serialized ends the loop at its row.  The
    rows before it are processed as usual; for the row itself the schema,
    if it changed, and the record are written, the bookmark is not
    advanced, no checkpoint is written, and no later row is processed. *)
Theorem unserializable_key_ends_loop stream state key ver te pre row post
    schema n h s1 n1 h1 t1 e :
  stream_rows stream state key ver te schema n pre h = (Ok (s1, n1), h1, t1) →
  truthy (row_get row key) = true →
  class_to_string (row_get row key) (class_name (row_get row key)) = Raise e →
  ∃ t_row,
    stream_rows stream state key ver te schema n (pre ++ row :: post) h
      = (Raise e, h1, t1 ++ t_row)
    ∧ records t_row = [row_to_singer_record stream row ver te]
    ∧ count is_state t_row = 0%nat
    ∧ count is_record (t1 ++ t_row) = S (length pre).
Proof.
  intros Hpre Ht He. exists (row_events stream ver te s1 row).
  split.
  { rewrite stream_rows_app, Hpre. simpl. unfold mbind, M_bind.
    rewrite process_row_eq, (update_bookmark_raises _ _ _ _ _ e Ht He).
    by rewrite app_nil_r. }
  split.
  { unfold records. rewrite row_events_lines.
    by destruct (row_to_schema s1 row).2. }
  split; [by apply row_events_count|].
  rewrite count_app, row_events_records.
  rewrite (stream_rows_records _ _ _ _ _ _ _ _ _ _ _ _ _ Hpre). lia.
Qed.

(** ** Further properties of a run *)

Lemma resolved_version_not_none c sid now_ms :
  is_none (resolved_version c sid now_ms) = false.
Proof.
  unfold resolved_version.
  by destruct (is_none (bookmark_lookup c sid "version")) eqn:Hs.
Qed.

Lemma records_app t1 t2 : records (t1 ++ t2) = records t1 ++ records t2.
Proof. unfold records. rewrite lines_app. apply omap_app. Qed.

Lemma row_events_record_list stream ver te schema row :
  records (row_events stream ver te schema row)
  = [row_to_singer_record stream row ver te].
Proof.
  unfold records. rewrite row_events_lines.
  by destruct (row_to_schema schema row).2.
Qed.

(** The records the loop writes are those of the rows it got to, in the
    order of the cursor: all of them when it ends normally. *)
Lemma stream_rows_record_list stream state key ver te rows schema n h r h' t :
  stream_rows stream state key ver te schema n rows h = (r, h', t) →
  ∃ k, (k ≤ length rows)%nat
       ∧ records t
         = (λ row, row_to_singer_record stream row ver te) <$> take k rows
       ∧ (∀ res, r = Ok res → k = length rows).
Proof.
  revert rows schema n h r h' t.
  apply (stream_rows_cases stream state key ver te
    (λ schema n rows h r h' t,
       ∃ k, (k ≤ length rows)%nat
            ∧ records t
              = (λ row, row_to_singer_record stream row ver te) <$> take k rows
            ∧ (∀ res, r = Ok res → k = length rows))).
  - intros schema n h. exists 0%nat. split; [simpl; lia|]. by split.
  - intros schema n row rows h e h1 t1 Hrow.
    apply process_row_step in Hrow as (_ & _ & _ & [([=] & _)|(e' & _ & ->)]).
    exists 1%nat. split; [simpl; lia|]. split; [|done].
    rewrite row_events_record_list. by destruct rows.
  - intros schema n row rows h s1 n1 h1 t1 r h2 t2 Hrow _ (k & Hk & Hrec & Hok).
    exists (S k). split; [simpl; lia|]. split.
    + rewrite records_app, Hrec. simpl. f_equal.
      apply process_row_step in Hrow
        as (_ & _ & _ & [(_ & _ & _ & [[_ ->]|(_ & l & _ & _ & _ & ->)])
                        |(e & [=] & _)]).
      * by rewrite row_events_record_list.
      * by rewrite records_app, row_events_record_list.
    + intros res Hr. simpl. f_equal. by eapply Hok.
Qed.

(** A run whose query the driver served: the loop ran over the rows of
    the cursor, from the store [h2] where the state has the version. *)
Lemma sync_collection_served collection stream state projection now_ms te
    h r h' t f key cursor :
  sync_collection collection stream state projection now_ms te h = (r, h', t) →
  (f, projection, [(key, ASCENDING)]) ∈ issued t →
  find collection f projection [(key, ASCENDING)] = Ok cursor →
  let sid := tap_stream_id stream in
  let ver := resolved_version (deref h state) sid now_ms in
  let c1 := versioned (deref h state) sid now_ms in
  let act := Wrote (ActivateVersionMessage
                      (calculate_destination_stream_name stream) ver)
                   (ActivateVersionMessage
                      (calculate_destination_stream_name stream) ver) in
  let t0 := if is_none (bookmark_lookup (deref h state) sid "version")
            then [act] else [] in
  ∃ md l0 h2 rl t3,
    to_map (metadata stream) !! [] = Some md
    ∧ key = md !! "replication-key"
    ∧ build_find_filter key (default ∅ (c1 !! sid)) = Ok f
    ∧ h !! l0 = None ∧ l0 ≠ state
    ∧ h2 !! l0 = Some c1 ∧ h2 !! state = Some c1
    ∧ (∀ l, l ≠ state → l ≠ l0 → h2 !! l = h !! l)
    ∧ stream_rows stream state key ver te
        {| schema_type := "object"; properties := ∅ |} 0
        (cur_rows cursor) h2 = (rl, h', t3)
    ∧ match rl, cur_error cursor with
      | Raise e, _ | Ok _, Some e =>
          r = Raise e
          ∧ t = t0 ++ Wrote (StateMessage l0) (StateMessage c1)
                   :: Queried f projection [(key, ASCENDING)] :: t3
      | Ok _, None =>
          r = Ok tt
          ∧ t = t0 ++ Wrote (StateMessage l0) (StateMessage c1)
                   :: Queried f projection [(key, ASCENDING)] :: t3 ++ [act]
      end.
Proof.
  intros Hrun Hin Hfind sid ver c1 act t0.
  destruct (sync_collection_inv _ _ _ _ _ _ _ _ _ _ Hrun)
    as (l0 & h2 & Hl0new & Hl0 & Hh2l0 & Hh2s & Hh2frame & Hcases).
  cbv zeta in Hcases. fold sid ver c1 act t0 in Hcases.
  assert (Ht0 : issued t0 = []) by (unfold t0; by destruct (is_none _)).
  destruct (to_map (metadata stream) !! []) as [md|].
  - destruct (build_find_filter _ _) as [f0|e] eqn:Hfilter.
    + destruct (find collection f0 projection _) as [cursor0|e] eqn:Hfind0.
      * destruct Hcases as (rl & t3 & Hloop & Hend).
        destruct (stream_rows_quiet _ _ _ _ _ _ _ _ _ _ _ _ Hloop)
          as [_ Hnoquery].
        assert (Hq : f = f0 ∧ key = md !! "replication-key").
        { destruct rl as [res|e]; [destruct (cur_error cursor0)|];
            destruct Hend as [_ ->];
            rewrite issued_app, Ht0 in Hin; simpl in Hin;
            rewrite ?issued_app, Hnoquery in Hin; simpl in Hin;
            apply list_elem_of_singleton in Hin; by injection Hin as -> ->. }
        destruct Hq as [-> ->]. rewrite Hfind0 in Hfind. injection Hfind as <-.
        exists md, l0, h2, rl, t3. do 8 (split; [done|]).
        split; [done|].
        destruct rl as [res|e]; [destruct (cur_error cursor0)|]; exact Hend.
      * destruct Hcases as (_ & -> & _).
        rewrite issued_app, Ht0 in Hin. simpl in Hin.
        apply list_elem_of_singleton in Hin. injection Hin as -> ->.
        rewrite Hfind0 in Hfind. discriminate.
    + destruct Hcases as (_ & -> & _). rewrite issued_app, Ht0 in Hin.
      by apply elem_of_nil in Hin.
  - destruct Hcases as (_ & -> & _). rewrite Ht0 in Hin.
    by apply elem_of_nil in Hin.
Qed.

(** What holds of the state with the version written and is kept by
    advancing the bookmark holds of the state after the run, however the
    run ends. *)
Lemma sync_collection_keeps (P : State → Prop) collection stream state projection
    now_ms te h r h' t :
  sync_collection collection stream state projection now_ms te h = (r, h', t) →
  P (versioned (deref h state) (tap_stream_id stream) now_ms) →
  (∀ md, to_map (metadata stream) !! [] = Some md →
         ∀ c row, P c →
                  P (advance (tap_stream_id stream) (md !! "replication-key") c row)) →
  P (deref h' state).
Proof.
  intros Hrun HP Hkeep.
  destruct (sync_collection_inv _ _ _ _ _ _ _ _ _ _ Hrun)
    as (l0 & h2 & Hl0new & Hl0 & Hh2l0 & Hh2s & Hh2frame & Hcases).
  cbv zeta in Hcases.
  assert (Hh2 : deref h2 state
                = versioned (deref h state) (tap_stream_id stream) now_ms)
    by (unfold deref; by rewrite Hh2s).
  destruct (to_map (metadata stream) !! []) as [md|].
  - specialize (Hkeep md eq_refl).
    destruct (build_find_filter _ _) as [f0|e].
    + destruct (find collection f0 projection _) as [cursor0|e].
      * destruct Hcases as (rl & t3 & Hloop & _).
        apply (stream_rows_invariant _ _ _ _ _ P) in Hloop as [Hend _];
          [done|done|by rewrite Hh2].
      * destruct Hcases as (_ & _ & ->). by rewrite Hh2.
    + destruct Hcases as (_ & _ & ->). by rewrite Hh2.
  - destruct Hcases as (_ & _ & Hs & _). unfold deref. by rewrite Hs.
Qed.

(** X4: a run touches nothing but its own stream's bookmark.  However it
    ends, the bookmarks of the other streams, the other keys of this
    stream and the objects that were in the store, the state object
    apart, are as they were. *)
Theorem other_bookmarks_untouched collection stream state projection now_ms te
    h r h' t :
  sync_collection collection stream state projection now_ms te h = (r, h', t) →
  (∀ sid' k,
     sid' ≠ tap_stream_id stream
     ∨ k ≠ "version" ∧ k ≠ "replication_key_value" ∧ k ≠ "replication_key_type" →
     bookmark_lookup (deref h' state) sid' k
     = bookmark_lookup (deref h state) sid' k)
  ∧ (∀ l, l ≠ state → is_Some (h !! l) → h' !! l = h !! l).
Proof.
  intros Hrun. split.
  - intros sid' k Hne.
    apply (sync_collection_keeps
             (λ c, bookmark_lookup c sid' k = bookmark_lookup (deref h state) sid' k)
             _ _ _ _ _ _ _ _ _ _ Hrun).
    + unfold versioned. apply bookmark_lookup_insert_ne.
      destruct Hne as [Hne|(Hne & _ & _)]; auto.
    + intros md _ c row Hc. rewrite advance_other; [done|].
      destruct Hne as [Hne|(_ & Hv & Hty)]; auto.
  - intros l Hl Hlive.
    destruct (sync_collection_inv _ _ _ _ _ _ _ _ _ _ Hrun)
      as (l0 & h2 & Hl0new & Hl0 & Hh2l0 & Hh2s & Hh2frame & Hcases).
    cbv zeta in Hcases.
    assert (Hll0 : l ≠ l0).
    { intros ->. rewrite Hl0new in Hlive. by destruct Hlive. }
    assert (Hh2l : h2 !! l = h !! l) by auto.
    destruct (to_map (metadata stream) !! []) as [md|].
    + destruct (build_find_filter _ _) as [f0|e].
      * destruct (find collection f0 projection _) as [cursor0|e].
        -- destruct Hcases as (rl & t3 & Hloop & _).
           destruct (stream_rows_frame _ _ _ _ _ _ _ _ _ _ _ _ Hloop)
             as (_ & Hframe & _); [by rewrite Hh2s|].
           rewrite Hframe; [done|by rewrite Hh2l|done].
        -- by destruct Hcases as (_ & _ & ->).
      * by destruct Hcases as (_ & _ & ->).
    + destruct Hcases as (_ & _ & _ & Hframe). auto.
Qed.

(** X5: the version is kept from one run to the next.  After a run,
    however it ended, the state has a version that is not [None]; the next
    run on that state, at any later time, settles on the same version, is
    not a first run, and writes the activation at its end only, when it
    ends normally. *)
Theorem version_kept_across_runs collection stream state projection now_ms te
    collection' projection' now_ms' te' h r1 h1 t1 r2 h2 t2 :
  sync_collection collection stream state projection now_ms te h = (r1, h1, t1) →
  sync_collection collection' stream state projection' now_ms' te' h1
    = (r2, h2, t2) →
  let sid := tap_stream_id stream in
  let ver := resolved_version (deref h state) sid now_ms in
  is_none (bookmark_lookup (deref h1 state) sid "version") = false
  ∧ resolved_version (deref h1 state) sid now_ms' = ver
  ∧ bookmark_lookup (deref h2 state) sid "version" = ver
  ∧ count is_activate t2 = (match r2 with Ok _ => 1 | Raise _ => 0 end)%nat.
Proof.
  intros Hrun1 Hrun2 sid ver.
  assert (Hv1 : bookmark_lookup (deref h1 state) sid "version" = ver).
  { apply (sync_collection_keeps (λ c, bookmark_lookup c sid "version" = ver)
             _ _ _ _ _ _ _ _ _ _ Hrun1).
    - apply bookmark_lookup_insert_eq.
    - intros md _ c row Hc. rewrite advance_other; [done|]. right. done. }
  assert (Hnot : is_none (bookmark_lookup (deref h1 state) sid "version") = false).
  { rewrite Hv1. apply resolved_version_not_none. }
  assert (Hv2 : resolved_version (deref h1 state) sid now_ms' = ver).
  { unfold resolved_version at 1. fold sid. by rewrite Hnot. }
  split; [done|]. split; [done|]. split.
  - rewrite <- Hv2.
    apply (sync_collection_keeps
             (λ c, bookmark_lookup c sid "version"
                   = resolved_version (deref h1 state) sid now_ms')
             _ _ _ _ _ _ _ _ _ _ Hrun2).
    + apply bookmark_lookup_insert_eq.
    + intros md _ c row Hc. rewrite advance_other; [done|]. right. done.
  - destruct (sync_collection_inv _ _ _ _ _ _ _ _ _ _ Hrun2)
      as (l0 & h3 & _ & _ & _ & _ & _ & Hcases).
    cbv zeta in Hcases. fold sid in Hcases. rewrite Hnot in Hcases.
    destruct (to_map (metadata stream) !! []) as [md|].
    + destruct (build_find_filter _ _) as [f0|e].
      * destruct (find collection' f0 projection' _) as [cursor0|e].
        -- destruct Hcases as (rl & t3 & Hloop & Hend).
           destruct (stream_rows_quiet _ _ _ _ _ _ _ _ _ _ _ _ Hloop)
             as [Hquiet _].
           destruct rl as [res|e]; [destruct (cur_error cursor0)|];
             destruct Hend as [-> ->]; simpl;
             change (count is_activate (Wrote (StateMessage l0) _ :: Queried _ _ _ :: ?t))
               with (count is_activate t);
             rewrite ?count_app, Hquiet; done.
        -- by destruct Hcases as (-> & -> & _).
      * by destruct Hcases as (-> & -> & _).
    + by destruct Hcases as (-> & -> & _).
Qed.

(** X6: without a replication key the bookmark never moves.  When the
    metadata designates no replication key, the state after the run,
    however the run ends and whatever rows the driver serves, is the state
    at the call with the version written and nothing else. *)
Theorem no_key_no_bookmark collection stream state projection now_ms te
    h r h' t meta :
  sync_collection collection stream state projection now_ms te h = (r, h', t) →
  to_map (metadata stream) !! [] = Some meta →
  meta !! "replication-key" = None →
  deref h' state = versioned (deref h state) (tap_stream_id stream) now_ms.
Proof.
  intros Hrun Hmeta Hkey.
  apply (sync_collection_keeps
           (λ c, c = versioned (deref h state) (tap_stream_id stream) now_ms)
           _ _ _ _ _ _ _ _ _ _ Hrun); [done|].
  intros md Hmd c row ->. rewrite Hmeta in Hmd. injection Hmd as <-.
  by rewrite Hkey.
Qed.

(** X7: the records of a run are those of the rows of the cursor, in the
    order of the cursor, each made from its row with the version the run
    settled on and the one extraction time: those of the first rows when
    the run ends early, those of all the rows when it ends normally.  A
    run that makes no query writes no record. *)
Theorem records_follow_cursor collection stream state projection now_ms te
    h r h' t :
  sync_collection collection stream state projection now_ms te h = (r, h', t) →
  let ver := resolved_version (deref h state) (tap_stream_id stream) now_ms in
  (∀ f key cursor,
     (f, projection, [(key, ASCENDING)]) ∈ issued t →
     find collection f projection [(key, ASCENDING)] = Ok cursor →
     ∃ k, (k ≤ length (cur_rows cursor))%nat
          ∧ records t
            = (λ row, row_to_singer_record stream row ver te)
                <$> take k (cur_rows cursor)
          ∧ (r = Ok tt → k = length (cur_rows cursor)))
  ∧ (issued t = [] → records t = []).
Proof.
  intros Hrun ver. split.
  - intros f key cursor Hin Hfind.
    destruct (sync_collection_served _ _ _ _ _ _ _ _ _ _ _ _ _ Hrun Hin Hfind)
      as (md & l0 & h2 & rl & t3 & _ & _ & _ & _ & _ & _ & _ & _ & Hloop & Hend).
    fold ver in Hloop, Hend.
    destruct (stream_rows_record_list _ _ _ _ _ _ _ _ _ _ _ _ Hloop)
      as (k & Hk & Hrec & Hall).
    exists k. split; [done|].
    assert (Ht0 : ∀ b : bool,
      records (if b
               then [Wrote (ActivateVersionMessage
                              (calculate_destination_stream_name stream) ver)
                           (ActivateVersionMessage
                              (calculate_destination_stream_name stream) ver)]
               else []) = []) by (by intros []).
    destruct rl as [res|e]; [destruct (cur_error cursor)|];
      destruct Hend as [-> ->]; rewrite records_app, Ht0; simpl;
      change (records (Wrote (StateMessage l0) _ :: Queried _ _ _ :: ?t))
        with (records t);
      rewrite ?records_app, Hrec; simpl; rewrite ?app_nil_r;
      (split; [done|]); try discriminate.
    intros _. by eapply Hall.
  - intros Hnone.
    destruct (sync_collection_inv _ _ _ _ _ _ _ _ _ _ Hrun)
      as (l0 & h2 & _ & _ & _ & _ & _ & Hcases).
    cbv zeta in Hcases.
    destruct (to_map (metadata stream) !! []) as [md|].
    + destruct (build_find_filter _ _) as [f0|e].
      * destruct (find collection f0 projection _) as [cursor0|e].
        -- destruct Hcases as (rl & t3 & _ & Hend).
           destruct rl as [res|e]; [destruct (cur_error cursor0)|];
             destruct Hend as [_ ->]; rewrite issued_app in Hnone;
             by destruct (is_none _).
        -- destruct Hcases as (_ & -> & _). rewrite issued_app in Hnone.
           by destruct (is_none _).
      * destruct Hcases as (_ & -> & _). by destruct (is_none _).
    + destruct Hcases as (_ & -> & _). by destruct (is_none _).
Qed.

(** X8: over a cursor without rows the run ends normally, whatever the
    checkpoint period: it writes the activation if it is a first run, the
    first STATE message and the closing activation, no record and no
    schema, and the state has the version written and nothing else. *)
Theorem empty_cursor_run collection stream state projection now_ms te
    h r h' t f key cursor :
  sync_collection collection stream state projection now_ms te h = (r, h', t) →
  (f, projection, [(key, ASCENDING)]) ∈ issued t →
  find collection f projection [(key, ASCENDING)] = Ok cursor →
  cur_rows cursor = [] →
  cur_error cursor = None →
  let sid := tap_stream_id stream in
  let ver := resolved_version (deref h state) sid now_ms in
  let dest := calculate_destination_stream_name stream in
  r = Ok tt
  ∧ lines t
    = (if is_none (bookmark_lookup (deref h state) sid "version")
       then [ActivateVersionMessage dest ver] else [])
      ++ [StateMessage (versioned (deref h state) sid now_ms);
          ActivateVersionMessage dest ver]
  ∧ deref h' state = versioned (deref h state) sid now_ms.
Proof.
  intros Hrun Hin Hfind Hrows Herr sid ver dest.
  destruct (sync_collection_served _ _ _ _ _ _ _ _ _ _ _ _ _ Hrun Hin Hfind)
    as (md & l0 & h2 & rl & t3 & _ & _ & _ & _ & _ & _ & Hh2s & _ & Hloop & Hend).
  rewrite Hrows in Hloop. injection Hloop as <- <- <-.
  rewrite Herr in Hend. destruct Hend as [-> ->].
  split; [done|]. split.
  - rewrite lines_app. by destruct (is_none _).
  - unfold deref. by rewrite Hh2s.
Qed.

(** X9: an error of the cursor after its rows.  When the cursor ends on
    an error and no row raises, the run ends on the cursor's error after
    it has written the record of every row and advanced the bookmark by
    every row; it does not write the closing activation. *)
Theorem cursor_error_after_rows collection stream state projection now_ms te
    h r h' t f key cursor e :
  sync_collection collection stream state projection now_ms te h = (r, h', t) →
  (f, projection, [(key, ASCENDING)]) ∈ issued t →
  find collection f projection [(key, ASCENDING)] = Ok cursor →
  cur_error cursor = Some e →
  UPDATE_BOOKMARK_PERIOD ≠ 0%Z →
  Forall (λ row, truthy (row_get row key) = true → stores key row = true)
    (cur_rows cursor) →
  let sid := tap_stream_id stream in
  let ver := resolved_version (deref h state) sid now_ms in
  r = Raise e
  ∧ records t
    = (λ row, row_to_singer_record stream row ver te) <$> cur_rows cursor
  ∧ deref h' state
    = foldl (advance sid key) (versioned (deref h state) sid now_ms)
        (cur_rows cursor)
  ∧ count is_activate t
    = (if is_none (bookmark_lookup (deref h state) sid "version") then 1 else 0)%nat.
Proof.
  intros Hrun Hin Hfind Herr HN Hser sid ver.
  destruct (sync_collection_served _ _ _ _ _ _ _ _ _ _ _ _ _ Hrun Hin Hfind)
    as (md & l0 & h2 & rl & t3 & _ & _ & _ & _ & _ & _ & Hh2s & _ & Hloop & Hend).
  fold sid ver in Hloop, Hend.
  destruct (stream_rows_completes stream state key ver te (cur_rows cursor)
              {| schema_type := "object"; properties := ∅ |} 0 h2 HN Hser)
    as (s1 & n1 & h3 & t4 & Hok).
  rewrite Hok in Hloop. injection Hloop as <- <- <-.
  rewrite Herr in Hend. destruct Hend as [-> ->].
  destruct (stream_rows_record_list _ _ _ _ _ _ _ _ _ _ _ _ Hok)
    as (k & _ & Hrec & Hall).
  rewrite (Hall _ eq_refl), firstn_all in Hrec.
  destruct (stream_rows_content _ _ _ _ _ _ _ _ _ _ _ _ Hok)
    as (k' & _ & Hc & Hk').
  destruct (Hk' _ _ eq_refl) as [-> _]. rewrite firstn_all in Hc.
  destruct (stream_rows_quiet _ _ _ _ _ _ _ _ _ _ _ _ Hok) as [Hquiet _].
  split; [done|]. split; [|split].
  - rewrite records_app.
    change (records (Wrote (StateMessage l0) _ :: Queried _ _ _ :: t4))
      with (records t4).
    rewrite Hrec. by destruct (is_none _).
  - rewrite Hc. f_equal. unfold deref. by rewrite Hh2s.
  - rewrite count_app.
    change (count is_activate (Wrote (StateMessage l0) _ :: Queried _ _ _ :: t4))
      with (count is_activate t4).
    rewrite Hquiet. by destruct (is_none _).
Qed.

(** X10: an error of the driver at the query.  When the driver refuses
    the query, the run ends on the driver's error: by then it has written
    the version into the state and the first STATE message, and it writes
    no record, no checkpoint and no closing activation. *)
Theorem driver_error_ends_run collection stream state projection now_ms te
    h r h' t f sort e :
  sync_collection collection stream state projection now_ms te h = (r, h', t) →
  (f, projection, sort) ∈ issued t →
  find collection f projection sort = Raise e →
  let sid := tap_stream_id stream in
  let ver := resolved_version (deref h state) sid now_ms in
  r = Raise e
  ∧ lines t
    = (if is_none (bookmark_lookup (deref h state) sid "version")
       then [ActivateVersionMessage (calculate_destination_stream_name stream) ver]
       else [])
      ++ [StateMessage (versioned (deref h state) sid now_ms)]
  ∧ deref h' state = versioned (deref h state) sid now_ms.
Proof.
  intros Hrun Hin Hfind sid ver.
  destruct (sync_collection_inv _ _ _ _ _ _ _ _ _ _ Hrun)
    as (l0 & h2 & _ & _ & _ & Hh2s & _ & Hcases).
  cbv zeta in Hcases. fold sid ver in Hcases.
  assert (Ht0 : ∀ b : bool,
    issued (if b
            then [Wrote (ActivateVersionMessage
                           (calculate_destination_stream_name stream) ver)
                        (ActivateVersionMessage
                           (calculate_destination_stream_name stream) ver)]
            else []) = []) by (by intros []).
  destruct (to_map (metadata stream) !! []) as [md|].
  - destruct (build_find_filter _ _) as [f0|e0].
    + destruct (find collection f0 projection _) as [cursor0|e0] eqn:Hfind0.
      * destruct Hcases as (rl & t3 & Hloop & Hend).
        destruct (stream_rows_quiet _ _ _ _ _ _ _ _ _ _ _ _ Hloop)
          as [_ Hnoquery].
        exfalso.
        destruct rl as [res|e1]; [destruct (cur_error cursor0)|];
          destruct Hend as [_ ->];
          rewrite issued_app, Ht0 in Hin; simpl in Hin;
          rewrite ?issued_app, Hnoquery in Hin; simpl in Hin;
          apply list_elem_of_singleton in Hin; injection Hin as -> ->;
          rewrite Hfind0 in Hfind; discriminate.
      * destruct Hcases as (-> & -> & ->).
        rewrite issued_app, Ht0 in Hin. simpl in Hin.
        apply list_elem_of_singleton in Hin. injection Hin as -> ->.
        rewrite Hfind0 in Hfind. injection Hfind as ->.
        split; [done|]. split.
        -- rewrite lines_app. by destruct (is_none _).
        -- unfold deref. by rewrite Hh2s.
    + destruct Hcases as (_ & -> & _). rewrite issued_app, Ht0 in Hin.
      by apply elem_of_nil in Hin.
  - destruct Hcases as (_ & -> & _). rewrite Ht0 in Hin.
    by apply elem_of_nil in Hin.
Qed.

Lemma foldl_advance_last sid key c pre row post s :
  class_to_string (row_get row key) (class_name (row_get row key)) = Ok s →
  truthy (row_get row key) = true →
  Forall (λ later, truthy (row_get later key) = false) post →
  bookmark_lookup (foldl (advance sid key) c (pre ++ row :: post)) sid
    "replication_key_value" = VStr s
  ∧ bookmark_lookup (foldl (advance sid key) c (pre ++ row :: post)) sid
      "replication_key_type" = VStr (class_name (row_get row key)).
Proof.
  intros Hs Ht Hpost. rewrite foldl_app. simpl.
  rewrite foldl_advance_skip.
  - destruct (advance_store sid key (foldl (advance sid key) c pre) row)
      as (s' & Hs' & _ & Hv & Hty).
    { unfold stores. by rewrite Ht, Hs. }
    rewrite Hs in Hs'. injection Hs' as <-. done.
  - eapply Forall_impl; [exact Hpost|]. intros later Hf.
    unfold stores. by rewrite Hf.
Qed.

(** X11: the next run resumes at the last key.  After a run that ended
    normally over a cursor whose last row with a key that is true in
    Python's sense has the key [v], serialized to a string that is not
    empty and that decodes back to [v], the next run on the state this run
    left queries the driver with the filter [{key: {$gte: v}}]. *)
Theorem next_run_resumes_at_last_key collection stream state projection now_ms te
    collection' projection' now_ms' te' h h1 t1 r2 h2 t2
    f key cursor pre row post s :
  sync_collection collection stream state projection now_ms te h
    = (Ok tt, h1, t1) →
  (f, projection, [(key, ASCENDING)]) ∈ issued t1 →
  find collection f projection [(key, ASCENDING)] = Ok cursor →
  cur_rows cursor = pre ++ row :: post →
  truthy (row_get row key) = true →
  Forall (λ later, truthy (row_get later key) = false) post →
  class_to_string (row_get row key) (class_name (row_get row key)) = Ok s →
  s ≠ EmptyString →
  string_to_class (VStr s) (VStr (class_name (row_get row key)))
    = Ok (row_get row key) →
  sync_collection collection' stream state projection' now_ms' te' h1
    = (r2, h2, t2) →
  issued t2
  = [({[ key := {[ "$gte" := row_get row key ]} ]}, projection',
      [(key, ASCENDING)])].
Proof.
  intros Hrun1 Hin Hfind Hrows Ht Hpost Hs Hne Hback Hrun2.
  set (sid := tap_stream_id stream).
  destruct (sync_collection_served _ _ _ _ _ _ _ _ _ _ _ _ _ Hrun1 Hin Hfind)
    as (md & l0 & h3 & rl & t3 & Hmd & Hkey & _ & _ & _ & _ & Hh3s & _
        & Hloop & Hend).
  fold sid in Hloop, Hh3s.
  assert (Hbookmark :
    bookmark_lookup (deref h1 state) sid "replication_key_value" = VStr s
    ∧ bookmark_lookup (deref h1 state) sid "replication_key_type"
      = VStr (class_name (row_get row key))).
  { destruct (stream_rows_content _ _ _ _ _ _ _ _ _ _ _ _ Hloop)
      as (k & _ & Hc & Hk).
    destruct rl as [[s1 n1]|e]; [|by destruct Hend].
    destruct (Hk _ _ eq_refl) as [-> _]. rewrite firstn_all, Hrows in Hc.
    rewrite Hc. by apply foldl_advance_last. }
  destruct Hbookmark as [Hv Hty].
  destruct (sync_collection_inv _ _ _ _ _ _ _ _ _ _ Hrun2)
    as (l0' & h4 & _ & _ & _ & _ & _ & Hcases).
  cbv zeta in Hcases. fold sid in Hcases. rewrite Hmd, <- Hkey in Hcases.
  assert (Hfilter :
    build_find_filter key (default ∅ (versioned (deref h1 state) sid now_ms' !! sid))
    = Ok {[ key := {[ "$gte" := row_get row key ]} ]}).
  { unfold build_find_filter, versioned.
    rewrite !stream_lookup_insert_ne by done.
    unfold bookmark_lookup in Hv, Hty. rewrite Hv, Hty. simpl.
    apply String.eqb_neq in Hne. rewrite Hne. simpl. by rewrite Hback. }
  rewrite Hfilter in Hcases.
  destruct (find collection' _ projection' _) as [cursor0|e].
  - destruct Hcases as (rl' & t3' & Hloop' & Hend').
    destruct (stream_rows_quiet _ _ _ _ _ _ _ _ _ _ _ _ Hloop') as [_ Hnoquery].
    destruct rl' as [res|e]; [destruct (cur_error cursor0)|];
      destruct Hend' as [_ ->]; rewrite issued_app; simpl;
      rewrite ?issued_app, Hnoquery; by destruct (is_none _).
  - destruct Hcases as (_ & -> & _). rewrite issued_app.
    by destruct (is_none _).
Qed.

(** X12: a stream without a root metadata entry.  When the metadata of
    the stream has no entry for the empty breadcrumb, the run ends on an
    AttributeError at the reading of the replication key: by then the
    version is written into the state and, on a first run, the activation
    is written, and nothing else is: no STATE message, no query. *)
Theorem missing_metadata_ends_run collection stream state projection now_ms te
    h r h' t :
  sync_collection collection stream state projection now_ms te h = (r, h', t) →
  to_map (metadata stream) !! [] = None →
  let sid := tap_stream_id stream in
  let ver := resolved_version (deref h state) sid now_ms in
  r = Raise AttributeError
  ∧ lines t
    = (if is_none (bookmark_lookup (deref h state) sid "version")
       then [ActivateVersionMessage (calculate_destination_stream_name stream) ver]
       else [])
  ∧ issued t = []
  ∧ deref h' state = versioned (deref h state) sid now_ms.
Proof.
  intros Hrun Hnone sid ver.
  destruct (sync_collection_inv _ _ _ _ _ _ _ _ _ _ Hrun)
    as (l0 & h2 & _ & _ & _ & _ & _ & Hcases).
  cbv zeta in Hcases. rewrite Hnone in Hcases.
  destruct Hcases as (-> & -> & Hstate & _). fold sid ver.
  split; [done|]. split; [by destruct (is_none _)|].
  split; [by destruct (is_none _)|].
  unfold deref. by rewrite Hstate.
Qed.


End Properties.

(** * Worked examples *)

Lemma run_eta {A} (run : result A * Heap * list event) :
  run = (run.1.1, run.1.2, run.2).
Proof. by destruct run as [[r h] t]. Qed.

Lemma int_key_le_refl : Reflexive int_key_le.
Proof. intros a. destruct a; simpl; try reflexivity. Qed.

(** The serialization of the reference helpers round-trips. *)
Lemma int_of_str_of_int n : int_of_str (str_of_int n) = Some n.
Proof.
  unfold int_of_str, str_of_int.
  rewrite NilZero.isi; [simpl; by rewrite DecimalZ.of_to| |].
  all: destruct n; simpl; try discriminate.
  all: intros Heq; injection Heq as Heq.
  all: by destruct (Pos.to_uint p) eqn:Hp; try discriminate;
       apply (f_equal Pos.of_uint) in Hp; rewrite DecimalPos.Unsigned.of_to in Hp.
Qed.

Lemma spec_codec_round_trip v s :
  spec_class_to_string v (class_name v) = Ok s →
  spec_string_to_class (VStr s) (VStr (class_name v)) = Ok v.
Proof.
  destruct v; simpl; try discriminate; intros [= <-]; try reflexivity.
  all: by rewrite int_of_str_of_int.
Qed.

(** A row with the key 7: the bookmark becomes ("7", "int"). *)
Lemma update_bookmark_overwrites_when_truthy_witness :
  ∃ h',
    @update_bookmark (spec_common 2) (order 1 7) 0%nat "db-orders"
      (Some "updated_at") (heap0 ∅) = (Ok tt, h', [])
    ∧ bookmark_lookup (deref h' 0%nat) "db-orders" "replication_key_value"
      = VStr "7"
    ∧ bookmark_lookup (deref h' 0%nat) "db-orders" "replication_key_type"
      = VStr "int".
Proof.
  assert (Htruthy : truthy (row_get (order 1 7) (Some "updated_at")) = true)
    by (vm_compute; reflexivity).
  assert (Hser : @class_to_string (spec_common 2)
                   (row_get (order 1 7) (Some "updated_at"))
                   (class_name (row_get (order 1 7) (Some "updated_at")))
                 = Ok "7") by (vm_compute; reflexivity).
  destruct (@update_bookmark_overwrites_when_truthy (spec_common 2) (order 1 7)
              0%nat "db-orders" (Some "updated_at") (heap0 ∅)) as (Hstore & _ & _).
  destruct (Hstore Htruthy "7" Hser) as (h' & Hrun & Hv & Hty & _).
  exists h'. split; [exact Hrun|]. split; [exact Hv|].
  rewrite Hty. vm_compute. reflexivity.
Defined.

(** C5 fails on a row whose key is 0: the field is there and is not null,
    it could be serialized, and yet nothing is stored. *)
Lemma update_bookmark_ignores_zero_key :
  row_get (order 1 0) (Some "updated_at") = VInt 0
  ∧ is_none (row_get (order 1 0) (Some "updated_at")) = false
  ∧ spec_class_to_string (VInt 0) "int" = Ok "0"
  ∧ @update_bookmark (spec_common 2) (order 1 0) 0%nat "db-orders"
      (Some "updated_at") (heap0 ∅) = (Ok tt, heap0 ∅, []).
Proof. vm_compute. repeat split. Qed.

(** A row with the key 0 on a state whose bookmark is at 2: the store
    stays as it is; and the ("7", "int") that a row with the key 7 stores
    is not the serialization of 0. *)
Lemma update_bookmark_skips_falsy_witness :
  truthy (VFloat (2 ^ 63)) = false
  ∧ @update_bookmark (spec_common 2) (order 2 0) 0%nat "db-orders"
      (Some "updated_at") (heap0 resumed_state) = (Ok tt, heap0 resumed_state, [])
  ∧ ¬ (bookmark_lookup
         (deref (@update_bookmark (spec_common 2) (order 1 7) 0%nat "db-orders"
                   (Some "updated_at") (heap0 ∅)).1.2 0%nat)
         "db-orders" "replication_key_value" = VStr "0"
       ∧ bookmark_lookup
           (deref (@update_bookmark (spec_common 2) (order 1 7) 0%nat "db-orders"
                     (Some "updated_at") (heap0 ∅)).1.2 0%nat)
           "db-orders" "replication_key_type" = VStr (class_name (VInt 0))).
Proof.
  destruct (@update_bookmark_skips_falsy (spec_common 2))
    as (Hfalsy & _ & Hnoop & _ & Hnever).
  split.
  { apply Hfalsy. do 5 right. left. }
  split.
  { apply Hnoop. vm_compute. reflexivity. }
  pose proof (run_eta (@update_bookmark (spec_common 2) (order 1 7) 0%nat
                         "db-orders" (Some "updated_at") (heap0 ∅))) as Hrun.
  assert (Hchanged : (@update_bookmark (spec_common 2) (order 1 7) 0%nat "db-orders"
                        (Some "updated_at") (heap0 ∅)).1.2 ≠ heap0 ∅).
  { intros Heq.
    apply (f_equal (λ h, bookmark_lookup (deref h 0%nat) "db-orders"
                           "replication_key_value")) in Heq.
    vm_compute in Heq. discriminate. }
  assert (Hzero : truthy (VInt 0) = false) by reflexivity.
  assert (Hser : @class_to_string (spec_common 2) (VInt 0) (class_name (VInt 0))
                 = Ok "0") by (vm_compute; reflexivity).
  exact (Hnever spec_codec_round_trip _ _ _ _ _ _ _ _ Hrun Hchanged
           (VInt 0) "0" Hzero Hser).
Defined.

(** The loop over the rows with keys 1, 2 and then 3: the bookmark after
    the second row and the bookmark after the third are in order. *)
Lemma bookmark_never_regresses_witness :
  loop_two.1.1 = Ok (schema_of_orders, 2%Z)
  ∧ ∃ a b sa sb,
      int_key_le a b
      ∧ spec_class_to_string a (class_name a) = Ok sa
      ∧ spec_class_to_string b (class_name b) = Ok sb
      ∧ bookmark_lookup (deref loop_two.1.2 0%nat) "db-orders"
          "replication_key_value" = VStr sa
      ∧ bookmark_lookup (deref loop_two.1.2 0%nat) "db-orders"
          "replication_key_type" = VStr (class_name a)
      ∧ bookmark_lookup (deref loop_third.1.2 0%nat) "db-orders"
          "replication_key_value" = VStr sb
      ∧ bookmark_lookup (deref loop_third.1.2 0%nat) "db-orders"
          "replication_key_type" = VStr (class_name b)
      ∧ (spec_string_to_class (VStr sa) (VStr (class_name a)) = Ok a →
         spec_string_to_class (VStr sb) (VStr (class_name b)) = Ok b →
         @bookmarked_key (spec_common 2) (deref loop_two.1.2 0%nat) "db-orders"
         = Ok a
         ∧ @bookmarked_key (spec_common 2) (deref loop_third.1.2 0%nat) "db-orders"
           = Ok b).
Proof.
  assert (Htwo : loop_two.1.1 = Ok (schema_of_orders, 2%Z))
    by (vm_compute; reflexivity).
  assert (Hthird : loop_third.1.1 = Ok (schema_of_orders, 3%Z))
    by (vm_compute; reflexivity).
  split; [exact Htwo|].
  pose proof (run_eta loop_two) as Hrun1. rewrite Htwo in Hrun1.
  pose proof (run_eta loop_third) as Hrun2. rewrite Hthird in Hrun2.
  apply (@bookmark_never_regresses (spec_common 2) int_key_le
           orders_by_updated_at 0%nat (Some "updated_at") (VInt 1700) 5
           [order 1 1; order 2 2] [order 3 3]
           {| schema_type := "object"; properties := ∅ |} 0 (heap0 ∅)
           schema_of_orders 2 loop_two.1.2 loop_two.2
           schema_of_orders 3 loop_third.1.2 loop_third.2
           int_key_le_refl).
  - repeat constructor; vm_compute; discriminate.
  - exact Hrun1.
  - exact Hrun2.
  - apply Exists_cons_hd. vm_compute. reflexivity.
Defined.

(** The resumed run: the bookmark ("2", "int") gives the filter
    [{updated_at: {$gte: 2}}], which a row with the key 2 passes. *)
Lemma query_filter_from_bookmark_witness :
  issued resumed_run.2
  = [({[ Some "updated_at" := {[ "$gte" := VInt 2 ]} ]}, None,
      [(Some "updated_at", ASCENDING)])]
  ∧ (admits int_key_le {[ Some "updated_at" := {[ "$gte" := VInt 2 ]} ]} (order 2 2)
     ↔ int_key_le (VInt 2) (row_get (order 2 2) (Some "updated_at"))).
Proof.
  assert (Hmeta : to_map (metadata orders_by_updated_at) !! []
                  = Some {[ "replication-key" := "updated_at" ]})
    by (vm_compute; reflexivity).
  assert (Hkey : ({[ "replication-key" := "updated_at" ]} : gmap string string)
                   !! "replication-key" = Some "updated_at")
    by (vm_compute; reflexivity).
  assert (Htruthy : truthy (bookmark_lookup (deref (heap0 resumed_state) 0%nat)
                              (tap_stream_id orders_by_updated_at)
                              "replication_key_value") = true)
    by (vm_compute; reflexivity).
  assert (Hdecode : @string_to_class (spec_common 2)
                      (bookmark_lookup (deref (heap0 resumed_state) 0%nat)
                         (tap_stream_id orders_by_updated_at)
                         "replication_key_value")
                      (bookmark_lookup (deref (heap0 resumed_state) 0%nat)
                         (tap_stream_id orders_by_updated_at)
                         "replication_key_type") = Ok (VInt 2))
    by (vm_compute; reflexivity).
  destruct (@query_filter_from_bookmark (spec_common 2)
              (serving [order 2 2; order 3 3]) orders_by_updated_at 0%nat None
              1700 5 (heap0 resumed_state)
              resumed_run.1.1 resumed_run.1.2 resumed_run.2
              {[ "replication-key" := "updated_at" ]}
              (run_eta resumed_run) Hmeta)
    as (Hfilter & _ & _ & Hadmits & _).
  rewrite Hkey in Hfilter, Hadmits.
  split.
  - exact (Hfilter Htruthy (VInt 2) Hdecode).
  - exact (Hadmits int_key_le (VInt 2) (order 2 2)).
Defined.

(** C2 fails on a state whose bookmark is the empty string: the bookmark
    is there and decodes to the empty string, and yet the filter of the
    run is the empty one, not the one with the empty string as its bound. *)
Lemma empty_string_bookmark_gives_no_filter :
  (empty_bookmark_state !! "db-orders") ≫= (λ b, b !! "replication_key_value")
  = Some (VStr EmptyString)
  ∧ spec_string_to_class (VStr EmptyString) (VStr "str") = Ok (VStr EmptyString)
  ∧ issued empty_bookmark_run.2 = [(∅, None, [(Some "updated_at", ASCENDING)])]
  ∧ issued empty_bookmark_run.2
    ≠ [({[ Some "updated_at" := {[ "$gte" := VStr EmptyString ]} ]}, None,
        [(Some "updated_at", ASCENDING)])].
Proof.
  assert (Hissued : issued empty_bookmark_run.2
                    = [(∅, None, [(Some "updated_at", ASCENDING)])])
    by (vm_compute; reflexivity).
  split; [vm_compute; reflexivity|]. split; [vm_compute; reflexivity|].
  split; [exact Hissued|]. rewrite Hissued. intros Heq.
  pose proof (f_equal
    (λ q : list (find_filter * option string * list (keyname * Z)),
       match q with
       | (f, _, _) :: _ => f !! Some "updated_at"
       | [] => None
       end) Heq) as Hbound.
  cbv beta iota in Hbound.
  rewrite lookup_empty, lookup_singleton_eq in Hbound. discriminate.
Qed.

(** The first run settles on the wall-clock time, the state has it, and a
    checkpoint that carries it comes before the query. *)
Lemma version_resolved_and_stored_witness :
  resolved_version (deref (heap0 ∅) 0%nat) "db-orders" 1700 = VInt 1700
  ∧ bookmark_lookup (deref first_run.1.2 0%nat) "db-orders" "version"
    = resolved_version (deref (heap0 ∅) 0%nat) "db-orders" 1700
  ∧ ∃ t_before m c t_after,
      first_run.2 = t_before ++ Wrote m (StateMessage c) :: t_after
      ∧ issued t_before = [] ∧ count is_record t_before = 0%nat
      ∧ bookmark_lookup c "db-orders" "version"
        = resolved_version (deref (heap0 ∅) 0%nat) "db-orders" 1700.
Proof.
  assert (Hnone : is_none (bookmark_lookup (deref (heap0 ∅) 0%nat)
                             (tap_stream_id orders_by_updated_at) "version") = true)
    by (vm_compute; reflexivity).
  assert (Hquery : issued first_run.2 ≠ []) by (vm_compute; discriminate).
  destruct (@version_resolved_and_stored (spec_common 2) (serving three_orders)
              orders_by_updated_at 0%nat None 1700 5 (heap0 ∅)
              first_run.1.1 first_run.1.2 first_run.2 (run_eta first_run))
    as (Hfirst & _ & Hstate & _ & Hbefore).
  split; [exact (Hfirst Hnone)|]. split; [exact Hstate|].
  apply Hbefore. left. exact Hquery.
Defined.

(** The first run starts and ends with the activation; the resumed run
    only ends with it. *)
Lemma activation_messages_witness :
  (∃ t_mid,
     first_run.2
     = [Wrote (ActivateVersionMessage "orders" (VInt 1700))
              (ActivateVersionMessage "orders" (VInt 1700))]
       ++ t_mid
       ++ [Wrote (ActivateVersionMessage "orders" (VInt 1700))
                 (ActivateVersionMessage "orders" (VInt 1700))]
     ∧ count is_activate t_mid = 0%nat)
  ∧ (∃ t_mid,
       resumed_run.2
       = [] ++ t_mid
         ++ [Wrote (ActivateVersionMessage "orders" (VInt 1500))
                   (ActivateVersionMessage "orders" (VInt 1500))]
       ∧ count is_activate t_mid = 0%nat).
Proof.
  assert (Hfirst : first_run.1.1 = Ok tt) by (vm_compute; reflexivity).
  assert (Hresumed : resumed_run.1.1 = Ok tt) by (vm_compute; reflexivity).
  assert (Hnew : is_none (bookmark_lookup (deref (heap0 ∅) 0%nat)
                            (tap_stream_id orders_by_updated_at) "version") = true)
    by (vm_compute; reflexivity).
  assert (Hold : is_none (bookmark_lookup (deref (heap0 resumed_state) 0%nat)
                            (tap_stream_id orders_by_updated_at) "version") = false)
    by (vm_compute; reflexivity).
  assert (Hv1 : resolved_version (deref (heap0 ∅) 0%nat)
                  (tap_stream_id orders_by_updated_at) 1700 = VInt 1700)
    by (vm_compute; reflexivity).
  assert (Hv2 : resolved_version (deref (heap0 resumed_state) 0%nat)
                  (tap_stream_id orders_by_updated_at) 1700 = VInt 1500)
    by (vm_compute; reflexivity).
  split.
  - destruct (@activation_messages (spec_common 2) (serving three_orders)
                orders_by_updated_at 0%nat None 1700 5 (heap0 ∅)
                first_run.1.1 first_run.1.2 first_run.2 (run_eta first_run))
      as ((t_mid & Ht & Hquiet & _) & _).
    rewrite Hfirst, Hnew, Hv1 in Ht.
    exists t_mid. split; [exact Ht|exact Hquiet].
  - destruct (@activation_messages (spec_common 2)
                (serving [order 2 2; order 3 3])
                orders_by_updated_at 0%nat None 1700 5 (heap0 resumed_state)
                resumed_run.1.1 resumed_run.1.2 resumed_run.2
                (run_eta resumed_run))
      as ((t_mid & Ht & Hquiet & _) & _).
    rewrite Hresumed, Hold, Hv2 in Ht.
    exists t_mid. split; [exact Ht|exact Hquiet].
Defined.

(** Three rows with a checkpoint every two rows: two STATE messages. *)
Lemma checkpoint_count_witness :
  (0 < @UPDATE_BOOKMARK_PERIOD (spec_common 2))%Z
  ∧ Z.of_nat (count is_state first_run.2)
    = (1 + Z.of_nat (length three_orders) / 2)%Z.
Proof.
  assert (Hperiod : (0 < @UPDATE_BOOKMARK_PERIOD (spec_common 2))%Z)
    by (simpl; lia).
  assert (Hok : first_run.1.1 = Ok tt) by (vm_compute; reflexivity).
  pose proof (run_eta first_run) as Hrun. rewrite Hok in Hrun.
  split; [exact Hperiod|].
  destruct (@checkpoint_count (spec_common 2) (serving three_orders)
              orders_by_updated_at 0%nat None 1700 5 (heap0 ∅)
              first_run.1.2 first_run.2 Hperiod Hrun)
    as (t_start & f & sort & cursor & t_loop & m_act & line_act
        & _ & Hfind & _ & _ & _ & _ & _ & Hcount & _).
  injection Hfind as <-. exact Hcount.
Defined.

(** Rows whose fields change from one to the next: a first row with two
    fields, a row with the key as a string, a row with a field of its own.
    Two SCHEMA messages, for the first and for the third row, and as many
    as for the same rows with integer keys throughout. *)
Lemma schema_messages_witness :
  @row_to_schema (spec_common 2) = spec_row_to_schema
  ∧ count is_schema mixed_run.2 = schema_changes ∅ mixed_orders
  ∧ schema_changes ∅ mixed_orders = 2%nat
  ∧ schema_changes ∅ plain_orders = schema_changes ∅ mixed_orders
  ∧ (schema_changes ∅ mixed_orders ≤ size (field_names mixed_orders))%nat
  ∧ (schema_changes ∅ mixed_orders ≤ length mixed_orders)%nat
  ∧ growing ∅ (schemas mixed_run.2)
  ∧ (∀ sch, last (schemas mixed_run.2) = Some sch →
            dom (properties sch) = field_names mixed_orders).
Proof.
  assert (Hok : mixed_run.1.1 = Ok tt) by (vm_compute; reflexivity).
  pose proof (run_eta mixed_run) as Hrun. rewrite Hok in Hrun.
  assert (Htwo : schema_changes ∅ mixed_orders = 2%nat)
    by (vm_compute; reflexivity).
  assert (Hsame : dom <$> plain_orders = dom <$> mixed_orders)
    by (vm_compute; reflexivity).
  split; [reflexivity|].
  destruct (@schema_messages (spec_common 2) (serving mixed_orders)
              orders_by_updated_at 0%nat None 1700 5 (heap0 ∅)
              mixed_run.1.2 mixed_run.2 eq_refl Hrun)
    as (f & sort & cursor & _ & Hfind & Hcount & Hgrow & Hlast & _ & Hsize
        & Hlen & Hnames).
  injection Hfind as <-.
  split; [exact Hcount|]. split; [exact Htwo|].
  split; [exact (Hnames plain_orders Hsame)|].
  split; [exact Hsize|]. split; [exact Hlen|].
  split; [exact Hgrow|exact Hlast].
Defined.

(** C7 fails on rows that bring several field names at once: the first
    row of [mixed_orders] has two names that no row before it has and the
    third row has one more, so the cursor has three distinct names, and
    the run writes two SCHEMA messages, one for each of these two rows. *)
Lemma one_schema_message_for_two_names :
  mixed_run.1.1 = Ok tt
  ∧ size (field_names mixed_orders) = 3%nat
  ∧ count is_schema mixed_run.2 = 2%nat
  ∧ count is_schema mixed_run.2 ≠ size (field_names mixed_orders).
Proof.
  assert (Hnames : size (field_names mixed_orders) = 3%nat)
    by (vm_compute; reflexivity).
  assert (Hcount : count is_schema mixed_run.2 = 2%nat)
    by (vm_compute; reflexivity).
  split; [vm_compute; reflexivity|]. split; [exact Hnames|].
  split; [exact Hcount|]. rewrite Hnames, Hcount. discriminate.
Qed.



(** The first run: each STATE message holds an object of its own; the
    object of the checkpoint after the second row has the bookmark at "2"
    at the end of the run, when the state has it at "3". *)
Lemma state_messages_are_snapshots_witness :
  is_Some (heap0 ∅ !! 0%nat)
  ∧ (∀ m line, Wrote m line ∈ first_run.2 → is_state line = true →
       ∃ l c, m = StateMessage l ∧ line = StateMessage c
              ∧ l ≠ 0%nat ∧ heap0 ∅ !! l = None ∧ first_run.1.2 !! l = Some c)
  ∧ bookmark_lookup (deref first_run.1.2 0%nat) "db-orders" "replication_key_value"
    = VStr "3"
  ∧ bookmark_lookup (deref first_run.1.2 2%nat) "db-orders" "replication_key_value"
    = VStr "2".
Proof.
  assert (Hlive : is_Some (heap0 ∅ !! 0%nat)).
  { unfold heap0. rewrite lookup_singleton_eq. eauto. }
  split; [exact Hlive|].
  destruct (@state_messages_are_snapshots (spec_common 2) (serving three_orders)
              orders_by_updated_at 0%nat None 1700 5 (heap0 ∅)
              first_run.1.1 first_run.1.2 first_run.2 (run_eta first_run) Hlive)
    as (Hown & _).
  split; [exact Hown|]. split; vm_compute; reflexivity.
Defined.

(** A second call on the same row leaves the store as the first call left
    it. *)
Lemma update_bookmark_idempotent_witness :
  @update_bookmark (spec_common 2) (order 1 7) 0%nat "db-orders"
    (Some "updated_at") stored_seven.1.2
  = (stored_seven.1.1, stored_seven.1.2, []).
Proof.
  exact (@update_bookmark_idempotent (spec_common 2) (order 1 7) 0%nat
           "db-orders" (Some "updated_at") (heap0 ∅)
           stored_seven.1.1 stored_seven.1.2 stored_seven.2
           (run_eta stored_seven)).
Defined.

(** Rows with the keys 1, 3 and then 0: the bookmark ends at ("3", "int"). *)
Lemma bookmark_is_last_stored_key_witness :
  bookmark_lookup (deref loop_zero_last.1.2 0%nat) "db-orders"
    "replication_key_value" = VStr "3"
  ∧ bookmark_lookup (deref loop_zero_last.1.2 0%nat) "db-orders"
      "replication_key_type" = VStr "int".
Proof.
  assert (Hok : loop_zero_last.1.1 = Ok (schema_of_orders, 3%Z))
    by (vm_compute; reflexivity).
  pose proof (run_eta loop_zero_last) as Hrun. rewrite Hok in Hrun.
  assert (Htruthy : truthy (row_get (order 2 3) (Some "updated_at")) = true)
    by (vm_compute; reflexivity).
  assert (Hzero : truthy (row_get (order 3 0) (Some "updated_at")) = false)
    by (vm_compute; reflexivity).
  assert (Hser : @class_to_string (spec_common 2)
                   (row_get (order 2 3) (Some "updated_at"))
                   (class_name (row_get (order 2 3) (Some "updated_at")))
                 = Ok "3") by (vm_compute; reflexivity).
  assert (Hty : class_name (row_get (order 2 3) (Some "updated_at")) = "int")
    by (vm_compute; reflexivity).
  destruct (@bookmark_is_last_stored_key (spec_common 2) orders_by_updated_at
              0%nat (Some "updated_at") (VInt 1700) 5
              [order 1 1] (order 2 3) [order 3 0]
              {| schema_type := "object"; properties := ∅ |} 0 (heap0 ∅)
              schema_of_orders 3 loop_zero_last.1.2 loop_zero_last.2
              Hrun Htruthy (Forall_cons_2 _ _ _ Hzero (Forall_nil_2 _)))
    as (s & Hs & Hv & Ht).
  rewrite Hser in Hs. injection Hs as <-. rewrite Hty in Ht.
  split; [exact Hv|exact Ht].
Defined.

(** After the rows with the keys 1 and 2, a row whose key is a boolean
    ends the loop: its record is written, and the row after it is not
    reached. *)
Lemma unserializable_key_ends_loop_witness :
  ∃ t_row,
    @stream_rows (spec_common 2) orders_by_updated_at 0%nat (Some "updated_at")
      (VInt 1700) 5 {| schema_type := "object"; properties := ∅ |} 0
      ([order 1 1; order 2 2] ++ flagged_order :: [order 4 4]) (heap0 ∅)
    = (Raise UnsupportedKeyTypeException, loop_two.1.2, loop_two.2 ++ t_row)
    ∧ records t_row
      = [@row_to_singer_record (spec_common 2) orders_by_updated_at
           flagged_order (VInt 1700) 5]
    ∧ count is_state t_row = 0%nat
    ∧ count is_record (loop_two.2 ++ t_row) = 3%nat.
Proof.
  assert (Htwo : loop_two.1.1 = Ok (schema_of_orders, 2%Z))
    by (vm_compute; reflexivity).
  pose proof (run_eta loop_two) as Hrun. rewrite Htwo in Hrun.
  assert (Htruthy : truthy (row_get flagged_order (Some "updated_at")) = true)
    by (vm_compute; reflexivity).
  assert (Hser : @class_to_string (spec_common 2)
                   (row_get flagged_order (Some "updated_at"))
                   (class_name (row_get flagged_order (Some "updated_at")))
                 = Raise UnsupportedKeyTypeException)
    by (vm_compute; reflexivity).
  exact (@unserializable_key_ends_loop (spec_common 2) orders_by_updated_at
           0%nat (Some "updated_at") (VInt 1700) 5
           [order 1 1; order 2 2] flagged_order [order 4 4]
           {| schema_type := "object"; properties := ∅ |} 0 (heap0 ∅)
           schema_of_orders 2 loop_two.1.2 loop_two.2
           UnsupportedKeyTypeException Hrun Htruthy Hser).
Defined.

(** The resumed run leaves every other entry of the state, and every
    other object of the store, as it found them. *)
Lemma other_bookmarks_untouched_witness :
  (∀ sid' k,
     sid' ≠ tap_stream_id orders_by_updated_at
     ∨ k ≠ "version" ∧ k ≠ "replication_key_value" ∧ k ≠ "replication_key_type" →
     bookmark_lookup (deref resumed_run.1.2 0%nat) sid' k
     = bookmark_lookup (deref (heap0 resumed_state) 0%nat) sid' k)
  ∧ (∀ l, l ≠ 0%nat → is_Some (heap0 resumed_state !! l) →
          resumed_run.1.2 !! l = heap0 resumed_state !! l).
Proof.
  exact (@other_bookmarks_untouched (spec_common 2)
           (serving [order 2 2; order 3 3]) orders_by_updated_at 0%nat None
           1700 5 (heap0 resumed_state)
           resumed_run.1.1 resumed_run.1.2 resumed_run.2 (run_eta resumed_run)).
Defined.

(** The run after the first run keeps the version 1700 of the first run,
    although its clock is at 1900, and writes the activation once. *)
Lemma version_kept_across_runs_witness :
  resolved_version (deref first_run.1.2 0%nat)
    (tap_stream_id orders_by_updated_at) 1900 = VInt 1700
  ∧ bookmark_lookup (deref second_run.1.2 0%nat)
      (tap_stream_id orders_by_updated_at) "version" = VInt 1700
  ∧ count is_activate second_run.2 = 1%nat.
Proof.
  assert (Hv : resolved_version (deref (heap0 ∅) 0%nat)
                 (tap_stream_id orders_by_updated_at) 1700 = VInt 1700)
    by (vm_compute; reflexivity).
  assert (Hok : second_run.1.1 = Ok tt) by (vm_compute; reflexivity).
  pose proof (@version_kept_across_runs (spec_common 2)
                (serving three_orders) orders_by_updated_at 0%nat None 1700 5
                (serving []) None 1900 6 (heap0 ∅)
                first_run.1.1 first_run.1.2 first_run.2
                second_run.1.1 second_run.1.2 second_run.2
                (run_eta first_run) (run_eta second_run)) as Hkept.
  cbv zeta in Hkept. destruct Hkept as (_ & Hsame & Hstored & Hact).
  rewrite Hv in Hsame, Hstored. rewrite Hok in Hact.
  split; [exact Hsame|]. split; [exact Hstored|exact Hact].
Defined.

(** A run on a stream without a replication key, over three rows: the
    state has the version and nothing else. *)
Lemma no_key_no_bookmark_witness :
  deref (keyless_run (serving three_orders)).1.2 0%nat
  = versioned (deref (heap0 ∅) 0%nat) (tap_stream_id orders_without_key) 1700.
Proof.
  assert (Hmeta : to_map (metadata orders_without_key) !! [] = Some ∅)
    by (vm_compute; reflexivity).
  assert (Hkey : (∅ : gmap string string) !! "replication-key" = None)
    by apply lookup_empty.
  exact (@no_key_no_bookmark (spec_common 2) (serving three_orders)
           orders_without_key 0%nat None 1700 5 (heap0 ∅)
           (keyless_run (serving three_orders)).1.1
           (keyless_run (serving three_orders)).1.2
           (keyless_run (serving three_orders)).2 ∅
           (run_eta (keyless_run (serving three_orders))) Hmeta Hkey).
Defined.

(** The first run writes the records of its three rows, in their order,
    with the version 1700 and the extraction time 5. *)
Lemma records_follow_cursor_witness :
  records first_run.2
  = (λ row, @row_to_singer_record (spec_common 2) orders_by_updated_at row
              (VInt 1700) 5)
      <$> cur_rows {| cur_rows := three_orders; cur_error := None |}.
Proof.
  assert (Hissued : issued first_run.2
                    = [(∅, None, [(Some "updated_at", ASCENDING)])])
    by (vm_compute; reflexivity).
  assert (Hok : first_run.1.1 = Ok tt) by (vm_compute; reflexivity).
  assert (Hv : resolved_version (deref (heap0 ∅) 0%nat)
                 (tap_stream_id orders_by_updated_at) 1700 = VInt 1700)
    by (vm_compute; reflexivity).
  pose proof (@records_follow_cursor (spec_common 2) (serving three_orders)
                orders_by_updated_at 0%nat None 1700 5 (heap0 ∅)
                first_run.1.1 first_run.1.2 first_run.2 (run_eta first_run))
    as Hrecords.
  cbv zeta in Hrecords. destruct Hrecords as [Hserved _].
  destruct (Hserved ∅ (Some "updated_at")
              {| cur_rows := three_orders; cur_error := None |})
    as (k & _ & Hrec & Hall).
  { rewrite Hissued. by apply list_elem_of_singleton. }
  { reflexivity. }
  rewrite (Hall Hok), firstn_all, Hv in Hrec. exact Hrec.
Defined.

(** A first run over a collection without rows: the activation, the
    STATE message and the activation again. *)
Lemma empty_cursor_run_witness :
  empty_run.1.1 = Ok tt
  ∧ lines empty_run.2
    = [ActivateVersionMessage
         (@calculate_destination_stream_name (spec_common 2) orders_by_updated_at)
         (VInt 1700)]
      ++ [StateMessage (versioned (deref (heap0 ∅) 0%nat)
                          (tap_stream_id orders_by_updated_at) 1700);
          ActivateVersionMessage
            (@calculate_destination_stream_name (spec_common 2)
               orders_by_updated_at)
            (VInt 1700)]
  ∧ deref empty_run.1.2 0%nat
    = versioned (deref (heap0 ∅) 0%nat) (tap_stream_id orders_by_updated_at) 1700.
Proof.
  assert (Hissued : issued empty_run.2
                    = [(∅, None, [(Some "updated_at", ASCENDING)])])
    by (vm_compute; reflexivity).
  assert (Hnew : is_none (bookmark_lookup (deref (heap0 ∅) 0%nat)
                            (tap_stream_id orders_by_updated_at) "version") = true)
    by (vm_compute; reflexivity).
  assert (Hv : resolved_version (deref (heap0 ∅) 0%nat)
                 (tap_stream_id orders_by_updated_at) 1700 = VInt 1700)
    by (vm_compute; reflexivity).
  assert (Hin : (∅, None, [(Some "updated_at", ASCENDING)])
                  ∈ issued empty_run.2).
  { rewrite Hissued. by apply list_elem_of_singleton. }
  pose proof (@empty_cursor_run (spec_common 2) (serving [])
                orders_by_updated_at 0%nat None 1700 5 (heap0 ∅)
                empty_run.1.1 empty_run.1.2 empty_run.2
                ∅ (Some "updated_at") {| cur_rows := []; cur_error := None |}
                (run_eta empty_run) Hin eq_refl eq_refl eq_refl) as Hempty.
  cbv zeta in Hempty. rewrite Hnew, Hv in Hempty. exact Hempty.
Defined.

(** A cursor that serves three rows and then loses its connection: the
    run ends on that error with the three records written and the
    bookmark advanced by the three rows, and without the closing
    activation. *)
Lemma cursor_error_after_rows_witness :
  interrupted_run.1.1 = Raise (DriverError "connection lost")
  ∧ records interrupted_run.2
    = (λ row, @row_to_singer_record (spec_common 2) orders_by_updated_at row
                (VInt 1700) 5)
        <$> cur_rows {| cur_rows := three_orders;
                        cur_error := Some (DriverError "connection lost") |}
  ∧ deref interrupted_run.1.2 0%nat
    = foldl (@advance (spec_common 2) (tap_stream_id orders_by_updated_at)
               (Some "updated_at"))
        (versioned (deref (heap0 ∅) 0%nat)
           (tap_stream_id orders_by_updated_at) 1700)
        (cur_rows {| cur_rows := three_orders;
                     cur_error := Some (DriverError "connection lost") |})
  ∧ count is_activate interrupted_run.2 = 1%nat.
Proof.
  assert (Hissued : issued interrupted_run.2
                    = [(∅, None, [(Some "updated_at", ASCENDING)])])
    by (vm_compute; reflexivity).
  assert (Hnew : is_none (bookmark_lookup (deref (heap0 ∅) 0%nat)
                            (tap_stream_id orders_by_updated_at) "version") = true)
    by (vm_compute; reflexivity).
  assert (Hv : resolved_version (deref (heap0 ∅) 0%nat)
                 (tap_stream_id orders_by_updated_at) 1700 = VInt 1700)
    by (vm_compute; reflexivity).
  assert (Hin : (∅, None, [(Some "updated_at", ASCENDING)])
                  ∈ issued interrupted_run.2).
  { rewrite Hissued. by apply list_elem_of_singleton. }
  assert (Hperiod : @UPDATE_BOOKMARK_PERIOD (spec_common 2) ≠ 0%Z)
    by (simpl; lia).
  assert (Hser : Forall (λ row, truthy (row_get row (Some "updated_at")) = true →
                                @stores (spec_common 2) (Some "updated_at") row = true)
                   (cur_rows {| cur_rows := three_orders;
                                cur_error := Some (DriverError "connection lost") |})).
  { repeat constructor; intros _; vm_compute; reflexivity. }
  pose proof (@cursor_error_after_rows (spec_common 2)
                (failing_after three_orders (DriverError "connection lost"))
                orders_by_updated_at 0%nat None 1700 5 (heap0 ∅)
                interrupted_run.1.1 interrupted_run.1.2 interrupted_run.2
                ∅ (Some "updated_at")
                {| cur_rows := three_orders;
                   cur_error := Some (DriverError "connection lost") |}
                (DriverError "connection lost")
                (run_eta interrupted_run) Hin eq_refl eq_refl Hperiod Hser)
    as Hcut.
  cbv zeta in Hcut. rewrite Hnew, Hv in Hcut. exact Hcut.
Defined.

(** A driver that refuses the sort key of a stream without a replication
    key: the run ends on the driver's error after the activation and the
    first STATE message. *)
Lemma driver_error_ends_run_witness :
  (keyless_run (strict_serving three_orders)).1.1 = Raise TypeError
  ∧ lines (keyless_run (strict_serving three_orders)).2
    = [ActivateVersionMessage
         (@calculate_destination_stream_name (spec_common 2) orders_without_key)
         (VInt 1700)]
      ++ [StateMessage (versioned (deref (heap0 ∅) 0%nat)
                          (tap_stream_id orders_without_key) 1700)]
  ∧ deref (keyless_run (strict_serving three_orders)).1.2 0%nat
    = versioned (deref (heap0 ∅) 0%nat) (tap_stream_id orders_without_key) 1700.
Proof.
  assert (Hissued : issued (keyless_run (strict_serving three_orders)).2
                    = [(∅, None, [(None, ASCENDING)])])
    by (vm_compute; reflexivity).
  assert (Hnew : is_none (bookmark_lookup (deref (heap0 ∅) 0%nat)
                            (tap_stream_id orders_without_key) "version") = true)
    by (vm_compute; reflexivity).
  assert (Hv : resolved_version (deref (heap0 ∅) 0%nat)
                 (tap_stream_id orders_without_key) 1700 = VInt 1700)
    by (vm_compute; reflexivity).
  assert (Hin : (∅, None, [(None, ASCENDING)])
                  ∈ issued (keyless_run (strict_serving three_orders)).2).
  { rewrite Hissued. by apply list_elem_of_singleton. }
  assert (Hfind : find (strict_serving three_orders) ∅ None [(None, ASCENDING)]
                  = Raise TypeError) by (vm_compute; reflexivity).
  pose proof (@driver_error_ends_run (spec_common 2)
                (strict_serving three_orders) orders_without_key 0%nat None
                1700 5 (heap0 ∅)
                (keyless_run (strict_serving three_orders)).1.1
                (keyless_run (strict_serving three_orders)).1.2
                (keyless_run (strict_serving three_orders)).2
                ∅ [(None, ASCENDING)] TypeError
                (run_eta (keyless_run (strict_serving three_orders)))
                Hin Hfind) as Hrefused.
  cbv zeta in Hrefused. rewrite Hnew, Hv in Hrefused. exact Hrefused.
Defined.

(** The first run ends on the row with the key 3; the run after it asks
    the driver for the rows whose key is at least 3. *)
Lemma next_run_resumes_at_last_key_witness :
  issued second_run.2
  = [({[ Some "updated_at" := {[ "$gte" := VInt 3 ]} ]}, None,
      [(Some "updated_at", ASCENDING)])].
Proof.
  assert (Hissued : issued first_run.2
                    = [(∅, None, [(Some "updated_at", ASCENDING)])])
    by (vm_compute; reflexivity).
  assert (Hok : first_run.1.1 = Ok tt) by (vm_compute; reflexivity).
  pose proof (run_eta first_run) as Hrun. rewrite Hok in Hrun.
  assert (Hin : (∅, None, [(Some "updated_at", ASCENDING)]) ∈ issued first_run.2).
  { rewrite Hissued. by apply list_elem_of_singleton. }
  assert (Hkey : row_get (order 3 3) (Some "updated_at") = VInt 3)
    by (vm_compute; reflexivity).
  assert (Htruthy : truthy (row_get (order 3 3) (Some "updated_at")) = true)
    by (vm_compute; reflexivity).
  assert (Hser : @class_to_string (spec_common 2)
                   (row_get (order 3 3) (Some "updated_at"))
                   (class_name (row_get (order 3 3) (Some "updated_at")))
                 = Ok "3") by (vm_compute; reflexivity).
  assert (Hfilled : "3" ≠ EmptyString) by discriminate.
  assert (Hback : @string_to_class (spec_common 2) (VStr "3")
                    (VStr (class_name (row_get (order 3 3) (Some "updated_at"))))
                  = Ok (row_get (order 3 3) (Some "updated_at")))
    by (vm_compute; reflexivity).
  pose proof (@next_run_resumes_at_last_key (spec_common 2)
                (serving three_orders) orders_by_updated_at 0%nat None 1700 5
                (serving []) None 1900 6 (heap0 ∅) first_run.1.2 first_run.2
                second_run.1.1 second_run.1.2 second_run.2
                ∅ (Some "updated_at")
                {| cur_rows := three_orders; cur_error := None |}
                [order 1 1; order 2 2] (order 3 3) [] "3"
                Hrun Hin eq_refl eq_refl Htruthy (Forall_nil_2 _) Hser Hfilled
                Hback (run_eta second_run)) as Hnext.
  rewrite Hkey in Hnext. exact Hnext.
Defined.

(** A stream without metadata: the run ends on an AttributeError after
    the activation of a first run, with the version in the state. *)
Lemma missing_metadata_ends_run_witness :
  unconfigured_run.1.1 = Raise AttributeError
  ∧ lines unconfigured_run.2
    = [ActivateVersionMessage
         (@calculate_destination_stream_name (spec_common 2)
            orders_without_metadata)
         (VInt 1700)]
  ∧ issued unconfigured_run.2 = []
  ∧ deref unconfigured_run.1.2 0%nat
    = versioned (deref (heap0 ∅) 0%nat)
        (tap_stream_id orders_without_metadata) 1700.
Proof.
  assert (Hmeta : to_map (metadata orders_without_metadata) !! [] = None)
    by (vm_compute; reflexivity).
  assert (Hnew : is_none (bookmark_lookup (deref (heap0 ∅) 0%nat)
                            (tap_stream_id orders_without_metadata) "version")
                 = true) by (vm_compute; reflexivity).
  assert (Hv : resolved_version (deref (heap0 ∅) 0%nat)
                 (tap_stream_id orders_without_metadata) 1700 = VInt 1700)
    by (vm_compute; reflexivity).
  pose proof (@missing_metadata_ends_run (spec_common 2) (serving three_orders)
                orders_without_metadata 0%nat None 1700 5 (heap0 ∅)
                unconfigured_run.1.1 unconfigured_run.1.2 unconfigured_run.2
                (run_eta unconfigured_run) Hmeta) as Hmissing.
  cbv zeta in Hmissing. rewrite Hnew, Hv in Hmissing. exact Hmissing.
Defined.

